(** * The accessibility overlay of [src/components/Accessibility.tsx]

    A shallow embedding of the component's settings record, of its three
    effects (load from [localStorage], save to [localStorage], apply to the
    DOM), of its three state updates ([togglePageStructure], [resetSettings],
    [handleSettingChange]) and of [renderPageStructure], together with the
    part of the JavaScript runtime they call: [JSON.stringify], [JSON.parse],
    object spread, [localStorage] and a DOM tree with inline styles.

    The React state [settings] is a JavaScript value, since the load effect
    stores whatever [JSON.parse] returns; a record of the TypeScript
    interface is such a value through [to_js].  [useState] and [setSettings]
    are explicit state passing; an effect with the dependency [[settings]]
    runs after every update, each update building a fresh object.  A thrown
    exception is a result of its own ([Throw]).

    The render is a function of the state and of the document it reads, and
    that document is the whole one: the nodes the last render of the
    component has left in it are part of what [renderPageStructure] finds.
    The dialog of [src/components/OrderModal.tsx] is embedded as its state
    and the handlers of its events. *)

From Stdlib Require Import NArith ZArith Ascii String DecimalString List Bool Lia.
From stdpp Require Import gmap strings list.
Import ListNotations.

Local Open Scope N_scope.
Set Warnings "-register-all".

(** ** JavaScript strings and values *)

(** A JavaScript string is a sequence of UTF-16 code units.  The strings that
    travel through [JSON] and [localStorage] are kept in that form. *)
Definition jsstring : Type := list N.

(** The code units of an ASCII literal of the source. *)
Definition lit (s : string) : jsstring :=
  map N_of_ascii (list_ascii_of_string s).

(** The values [JSON.parse] can return.  A number keeps the text of its
    literal: the arithmetic of doubles plays no part in the component.
    An object lists its own properties in the order [Object.keys] and
    [JSON.stringify] enumerate them. *)
Inductive json : Type :=
| JNull
| JBool (b : bool)
| JNum (literal : jsstring)
| JStr (s : jsstring)
| JArr (items : list json)
| JObj (props : list (jsstring * json)).

Definition is_digit (c : N) : bool := (48 <=? c) && (c <=? 57).

Fixpoint decimal_value (acc : N) (s : jsstring) : option N :=
  match s with
  | [] => Some acc
  | c :: s' => if is_digit c then decimal_value (10 * acc + (c - 48)) s' else None
  end.

(** An array index is a canonical numeric string below 2^32 - 1; such keys
    are enumerated first, in ascending order. *)
Definition array_index (k : jsstring) : option N :=
  match k with
  | [] => None
  | [48] => Some 0
  | 48 :: _ => None
  | _ => match decimal_value 0 k with
         | Some n => if n <? 4294967295 then Some n else None
         | None => None
         end
  end.

Fixpoint jsstring_eqb (a b : jsstring) : bool :=
  match a, b with
  | [], [] => true
  | x :: a', y :: b' => (x =? y) && jsstring_eqb a' b'
  | _, _ => false
  end.

(** [o[k]] for an own property: [None] stands for [undefined]. *)
Fixpoint obj_get (k : jsstring) (props : list (jsstring * json)) : option json :=
  match props with
  | [] => None
  | (k', v) :: rest => if jsstring_eqb k k' then Some v else obj_get k rest
  end.

Fixpoint obj_replace (k : jsstring) (v : json) (props : list (jsstring * json))
  : option (list (jsstring * json)) :=
  match props with
  | [] => None
  | (k', v') :: rest =>
      if jsstring_eqb k k' then Some ((k', v) :: rest)
      else match obj_replace k v rest with
           | Some rest' => Some ((k', v') :: rest')
           | None => None
           end
  end.

Fixpoint obj_insert_index (i : N) (k : jsstring) (v : json)
  (props : list (jsstring * json)) : list (jsstring * json) :=
  match props with
  | [] => [(k, v)]
  | (k', v') :: rest =>
      match array_index k' with
      | Some j => if i <? j then (k, v) :: props
                  else (k', v') :: obj_insert_index i k v rest
      | None => (k, v) :: props
      end
  end.

(** [CreateDataProperty]: an existing key keeps its place, a new array index
    goes among the indices, any other new key goes last. *)
Definition obj_set (k : jsstring) (v : json) (props : list (jsstring * json))
  : list (jsstring * json) :=
  match obj_replace k v props with
  | Some props' => props'
  | None =>
      match array_index k with
      | Some i => obj_insert_index i k v props
      | None => props ++ [(k, v)]
      end
  end.

(** Property read [v.k] of an own property.  On a value that is not an
    object the names the component reads ([showPageStructure] and the like)
    are [undefined]. *)
Definition prop (k : jsstring) (v : json) : option json :=
  match v with
  | JObj props => obj_get k props
  | _ => None
  end.

(** [ToBoolean]. *)
Definition truthy_string (s : jsstring) : bool :=
  match s with [] => false | _ => true end.

(** ** JSON.stringify *)

Definition hex_digit (n : N) : N := if n <? 10 then 48 + n else 87 + n.

Definition unicode_escape (c : N) : jsstring :=
  [92; 117; hex_digit (c / 4096 mod 16); hex_digit (c / 256 mod 16);
   hex_digit (c / 16 mod 16); hex_digit (c mod 16)].

Definition is_high_surrogate (c : N) : bool := (55296 <=? c) && (c <=? 56319).
Definition is_low_surrogate (c : N) : bool := (56320 <=? c) && (c <=? 57343).

(** The body of [QuoteJSONString]. *)
Fixpoint quote_units (s : jsstring) : jsstring :=
  match s with
  | [] => []
  | c :: rest =>
      if c =? 8 then [92; 98] ++ quote_units rest
      else if c =? 9 then [92; 116] ++ quote_units rest
      else if c =? 10 then [92; 110] ++ quote_units rest
      else if c =? 12 then [92; 102] ++ quote_units rest
      else if c =? 13 then [92; 114] ++ quote_units rest
      else if c =? 34 then [92; 34] ++ quote_units rest
      else if c =? 92 then [92; 92] ++ quote_units rest
      else if c <? 32 then unicode_escape c ++ quote_units rest
      else if is_high_surrogate c then
        match rest with
        | d :: rest' =>
            if is_low_surrogate d then c :: d :: quote_units rest'
            else unicode_escape c ++ quote_units rest
        | [] => unicode_escape c
        end
      else if is_low_surrogate c then unicode_escape c ++ quote_units rest
      else c :: quote_units rest
  end.

Definition quote (s : jsstring) : jsstring := [34] ++ quote_units s ++ [34].

Fixpoint join_comma (parts : list jsstring) : jsstring :=
  match parts with
  | [] => []
  | [p] => p
  | p :: rest => p ++ [44] ++ join_comma rest
  end.

(** [JSON.stringify(v)] with no replacer and no indentation.  A number is
    written as the literal it was read from, which is the text JavaScript
    writes for the literals of [plain_number] below; for another literal it
    writes the shortest text of the double, which is not modelled. *)
Fixpoint JSON_stringify (v : json) : jsstring :=
  match v with
  | JNull => lit "null"
  | JBool true => lit "true"
  | JBool false => lit "false"
  | JNum literal => literal
  | JStr s => quote s
  | JArr items =>
      [91] ++ join_comma
        ((fix each (l : list json) : list jsstring :=
            match l with
            | [] => []
            | x :: l' => JSON_stringify x :: each l'
            end) items) ++ [93]
  | JObj props =>
      [123] ++ join_comma
        ((fix each (l : list (jsstring * json)) : list jsstring :=
            match l with
            | [] => []
            | (k, x) :: l' => (quote k ++ [58] ++ JSON_stringify x) :: each l'
            end) props) ++ [125]
  end.




(** ** JSON.parse *)

(** The parser reads one code unit at a time.  Its state is the token being
    read, what the grammar allows next, and the containers still open. *)

Inductive numst : Type :=
| NSign | NZero | NInt | NPoint | NFrac | NExpMark | NExpSign | NExp.

Definition num_accepting (st : numst) : bool :=
  match st with
  | NZero | NInt | NFrac | NExp => true
  | _ => false
  end.

Definition is_exp_mark (c : N) : bool := (c =? 101) || (c =? 69).

Definition num_step (st : numst) (c : N) : option numst :=
  match st with
  | NSign => if c =? 48 then Some NZero
             else if is_digit c then Some NInt else None
  | NZero => if c =? 46 then Some NPoint
             else if is_exp_mark c then Some NExpMark else None
  | NInt => if is_digit c then Some NInt
            else if c =? 46 then Some NPoint
            else if is_exp_mark c then Some NExpMark else None
  | NPoint => if is_digit c then Some NFrac else None
  | NFrac => if is_digit c then Some NFrac
             else if is_exp_mark c then Some NExpMark else None
  | NExpMark => if is_digit c then Some NExp
                else if (c =? 43) || (c =? 45) then Some NExpSign else None
  | NExpSign => if is_digit c then Some NExp else None
  | NExp => if is_digit c then Some NExp else None
  end.

Definition hex_value (c : N) : option N :=
  if is_digit c then Some (c - 48)
  else if (97 <=? c) && (c <=? 102) then Some (c - 87)
  else if (65 <=? c) && (c <=? 70) then Some (c - 55)
  else None.

Definition escape_value (c : N) : option N :=
  if c =? 34 then Some 34
  else if c =? 92 then Some 92
  else if c =? 47 then Some 47
  else if c =? 98 then Some 8
  else if c =? 102 then Some 12
  else if c =? 110 then Some 10
  else if c =? 114 then Some 13
  else if c =? 116 then Some 9
  else None.

(** The token being read; accumulated text is kept reversed. *)
Inductive mode : Type :=
| MIdle
| MWord (rest : jsstring) (v : json)
| MNum (st : numst) (acc : jsstring)
| MStr (acc : jsstring)
| MEsc (acc : jsstring)
| MHex (acc : jsstring) (remaining : nat) (code : N).

Inductive expect : Type :=
| XValue
| XValueOrClose
| XKeyOrClose
| XKey
| XColon
| XCommaOrClose
| XEnd (result : json).

(** An open array with its items so far (reversed), or an open object with
    its properties so far and the key whose value is awaited. *)
Inductive frame : Type :=
| FArr (items : list json)
| FObj (props : list (jsstring * json)) (pending : option jsstring).

Record pstate : Type := PState {
  ps_mode : mode;
  ps_expect : expect;
  ps_stack : list frame
}.

Definition value_allowed (x : expect) : bool :=
  match x with XValue | XValueOrClose => true | _ => false end.

Definition key_allowed (x : expect) : bool :=
  match x with XKey | XKeyOrClose => true | _ => false end.

(** A complete value goes to the innermost open container, or ends the text. *)
Definition deliver (v : json) (stk : list frame) : option pstate :=
  match stk with
  | [] => Some (PState MIdle (XEnd v) [])
  | FArr items :: rest => Some (PState MIdle XCommaOrClose (FArr (v :: items) :: rest))
  | FObj props (Some k) :: rest =>
      Some (PState MIdle XCommaOrClose (FObj (obj_set k v props) None :: rest))
  | FObj _ None :: _ => None
  end.

Definition deliver_string (s : jsstring) (x : expect) (stk : list frame)
  : option pstate :=
  if key_allowed x then
    match stk with
    | FObj props None :: rest => Some (PState MIdle XColon (FObj props (Some s) :: rest))
    | _ => None
    end
  else if value_allowed x then deliver (JStr s) stk
  else None.

Definition is_json_space (c : N) : bool :=
  (c =? 32) || (c =? 9) || (c =? 10) || (c =? 13).

Definition step_idle (c : N) (x : expect) (stk : list frame) : option pstate :=
  if is_json_space c then Some (PState MIdle x stk)
  else if c =? 123 then
    if value_allowed x then Some (PState MIdle XKeyOrClose (FObj [] None :: stk)) else None
  else if c =? 91 then
    if value_allowed x then Some (PState MIdle XValueOrClose (FArr [] :: stk)) else None
  else if c =? 125 then
    match x, stk with
    | XKeyOrClose, FObj props None :: rest
    | XCommaOrClose, FObj props None :: rest => deliver (JObj props) rest
    | _, _ => None
    end
  else if c =? 93 then
    match x, stk with
    | XValueOrClose, FArr items :: rest
    | XCommaOrClose, FArr items :: rest => deliver (JArr (rev items)) rest
    | _, _ => None
    end
  else if c =? 44 then
    match x, stk with
    | XCommaOrClose, FArr _ :: _ => Some (PState MIdle XValue stk)
    | XCommaOrClose, FObj _ None :: _ => Some (PState MIdle XKey stk)
    | _, _ => None
    end
  else if c =? 58 then
    match x with
    | XColon => Some (PState MIdle XValue stk)
    | _ => None
    end
  else if c =? 34 then
    if value_allowed x || key_allowed x then Some (PState (MStr []) x stk) else None
  else if negb (value_allowed x) then None
  else if c =? 116 then Some (PState (MWord (lit "rue") (JBool true)) x stk)
  else if c =? 102 then Some (PState (MWord (lit "alse") (JBool false)) x stk)
  else if c =? 110 then Some (PState (MWord (lit "ull") JNull) x stk)
  else if c =? 45 then Some (PState (MNum NSign [c]) x stk)
  else if c =? 48 then Some (PState (MNum NZero [c]) x stk)
  else if is_digit c then Some (PState (MNum NInt [c]) x stk)
  else None.

Definition step (st : pstate) (c : N) : option pstate :=
  let x := ps_expect st in
  let stk := ps_stack st in
  match ps_mode st with
  | MIdle => step_idle c x stk
  | MWord rest v =>
      match rest with
      | c' :: rest' =>
          if c =? c' then
            match rest' with
            | [] => deliver v stk
            | _ => Some (PState (MWord rest' v) x stk)
            end
          else None
      | [] => None
      end
  | MNum ns acc =>
      match num_step ns c with
      | Some ns' => Some (PState (MNum ns' (c :: acc)) x stk)
      | None =>
          if num_accepting ns then
            match deliver (JNum (rev acc)) stk with
            | Some st' => step_idle c (ps_expect st') (ps_stack st')
            | None => None
            end
          else None
      end
  | MStr acc =>
      if c =? 34 then deliver_string (rev acc) x stk
      else if c =? 92 then Some (PState (MEsc acc) x stk)
      else if c <? 32 then None
      else Some (PState (MStr (c :: acc)) x stk)
  | MEsc acc =>
      if c =? 117 then Some (PState (MHex acc 4 0) x stk)
      else match escape_value c with
           | Some u => Some (PState (MStr (u :: acc)) x stk)
           | None => None
           end
  | MHex acc remaining code =>
      match hex_value c with
      | Some h =>
          match remaining with
          | 1%nat => Some (PState (MStr ((16 * code + h) :: acc)) x stk)
          | S remaining' => Some (PState (MHex acc remaining' (16 * code + h)) x stk)
          | O => None
          end
      | None => None
      end
  end.

Fixpoint steps (st : pstate) (s : jsstring) : option pstate :=
  match s with
  | [] => Some st
  | c :: s' => match step st c with
               | Some st' => steps st' s'
               | None => None
               end
  end.

Definition finish (st : pstate) : option json :=
  let closed :=
    match ps_mode st with
    | MIdle => Some st
    | MNum ns acc =>
        if num_accepting ns then deliver (JNum (rev acc)) (ps_stack st) else None
    | _ => None
    end in
  match closed with
  | Some (PState MIdle (XEnd v) []) => Some v
  | _ => None
  end.

(** [JSON.parse(text)] with no reviver: [None] stands for the [SyntaxError]
    it throws. *)
Definition JSON_parse (text : jsstring) : option json :=
  match steps (PState MIdle XValue []) text with
  | Some st => finish st
  | None => None
  end.

(** ** Truthiness *)

(** The digits of a number literal and its decimal exponent: the literal
    denotes [mantissa * 10 ^ exponent]. *)
Fixpoint scan_exponent (neg : bool) (acc : N) (s : jsstring) : Z :=
  match s with
  | [] => if neg then (- Z.of_N acc)%Z else Z.of_N acc
  | c :: s' =>
      if c =? 45 then scan_exponent true acc s'
      else if is_digit c then scan_exponent neg (10 * acc + (c - 48)) s'
      else scan_exponent neg acc s'
  end.

Fixpoint scan_mantissa (frac : bool) (m : N) (shift : Z) (s : jsstring) : N * Z :=
  match s with
  | [] => (m, shift)
  | c :: s' =>
      if is_digit c then
        scan_mantissa frac (10 * m + (c - 48)) (if frac then shift - 1 else shift)%Z s'
      else if c =? 46 then scan_mantissa true m shift s'
      else if is_exp_mark c then (m, (shift + scan_exponent false 0 s')%Z)
      else scan_mantissa frac m shift s'
  end.

(** Whether the double nearest to a literal is zero: the mantissa is zero, or
    the value is at most half the least subnormal, 2^-1075. *)
Definition number_is_zero (literal : jsstring) : bool :=
  let '(m, e) := scan_mantissa false 0 0%Z literal in
  (m =? 0) || ((e <? 0)%Z && (m * 2 ^ 1075 <=? 10 ^ Z.to_N (- e))).

(** [ToBoolean] of a property read; [None] is [undefined]. *)
Definition truthy (v : option json) : bool :=
  match v with
  | None => false
  | Some JNull => false
  | Some (JBool b) => b
  | Some (JNum literal) => negb (number_is_zero literal)
  | Some (JStr s) => truthy_string s
  | Some (JArr _) => true
  | Some (JObj _) => true
  end.

(** ** Object spread *)

Definition decimal_of (n : N) : jsstring :=
  lit (NilZero.string_of_uint (N.to_uint n)).

Fixpoint indexed {A : Type} (f : A -> json) (i : N) (l : list A)
  : list (jsstring * json) :=
  match l with
  | [] => []
  | x :: l' => (decimal_of i, f x) :: indexed f (N.succ i) l'
  end.

(** The own enumerable properties [{...v}] copies: those of an object, the
    elements of an array, the code units of a string, nothing otherwise. *)
Definition own_props (v : json) : list (jsstring * json) :=
  match v with
  | JObj props => props
  | JArr items => indexed (fun x => x) 0 items
  | JStr s => indexed (fun c => JStr [c]) 0 s
  | _ => []
  end.

(** [{...v}]: a fresh object that receives the properties one by one. *)
Definition spread (v : json) : list (jsstring * json) :=
  fold_left (fun o kv => obj_set (fst kv) (snd kv) o) (own_props v) [].

(** ** Errors *)

Inductive exn : Type := SyntaxError | TypeError.

Inductive outcome (A : Type) : Type :=
| Ok (a : A)
| Throw (e : exn).
Arguments Ok {A} a.
Arguments Throw {A} e.

Definition bind {A B : Type} (m : outcome A) (f : A -> outcome B) : outcome B :=
  match m with
  | Ok a => f a
  | Throw e => Throw e
  end.

(** ** The settings record *)

(** [textSize: "1em" | "1.25em"], [spacing: "normal" | "wide"],
    [font: "sans-serif" | "serif"]. *)
Inductive TextSize : Type := Em1 | Em1_25.
Inductive Spacing : Type := SpacingNormal | SpacingWide.
Inductive Font : Type := SansSerif | Serif.

Definition textSize_text (t : TextSize) : string :=
  match t with Em1 => "1em" | Em1_25 => "1.25em" end.
Definition spacing_text (t : Spacing) : string :=
  match t with SpacingNormal => "normal" | SpacingWide => "wide" end.
Definition font_text (t : Font) : string :=
  match t with SansSerif => "sans-serif" | Serif => "serif" end.

Record AccessibilitySettings : Type := {
  highlightLinks : bool;
  colorShift : bool;
  animationsEnabled : bool;
  highContrast : bool;
  focusEnabled : bool;
  cursorEnabled : bool;
  textSize : TextSize;
  spacing : Spacing;
  font : Font;
  imagesVisible : bool;
  showPageStructure : bool;
  guideEnabled : bool
}.

Definition defaultSettings : AccessibilitySettings := {|
  highlightLinks := false;
  colorShift := false;
  animationsEnabled := true;
  highContrast := false;
  focusEnabled := false;
  cursorEnabled := false;
  textSize := Em1;
  spacing := SpacingNormal;
  font := SansSerif;
  imagesVisible := true;
  showPageStructure := false;
  guideEnabled := false
|}.

(** [keyof AccessibilitySettings] and [AccessibilitySettings[K]]. *)
Inductive Key : Type :=
| KhighlightLinks | KcolorShift | KanimationsEnabled | KhighContrast
| KfocusEnabled | KcursorEnabled | KtextSize | Kspacing | Kfont
| KimagesVisible | KshowPageStructure | KguideEnabled.

Definition all_keys : list Key :=
  [KhighlightLinks; KcolorShift; KanimationsEnabled; KhighContrast;
   KfocusEnabled; KcursorEnabled; KtextSize; Kspacing; Kfont;
   KimagesVisible; KshowPageStructure; KguideEnabled].

Definition key_name (k : Key) : string :=
  match k with
  | KhighlightLinks => "highlightLinks"
  | KcolorShift => "colorShift"
  | KanimationsEnabled => "animationsEnabled"
  | KhighContrast => "highContrast"
  | KfocusEnabled => "focusEnabled"
  | KcursorEnabled => "cursorEnabled"
  | KtextSize => "textSize"
  | Kspacing => "spacing"
  | Kfont => "font"
  | KimagesVisible => "imagesVisible"
  | KshowPageStructure => "showPageStructure"
  | KguideEnabled => "guideEnabled"
  end.

Definition FieldType (k : Key) : Type :=
  match k with
  | KtextSize => TextSize
  | Kspacing => Spacing
  | Kfont => Font
  | _ => bool
  end.

(** The run-time value of a field. *)
Definition field_js (k : Key) : FieldType k -> json :=
  match k with
  | KtextSize => fun v => JStr (lit (textSize_text v))
  | Kspacing => fun v => JStr (lit (spacing_text v))
  | Kfont => fun v => JStr (lit (font_text v))
  | _ => fun v => JBool v
  end.

Definition field (k : Key) (s : AccessibilitySettings) : FieldType k :=
  match k with
  | KhighlightLinks => highlightLinks s
  | KcolorShift => colorShift s
  | KanimationsEnabled => animationsEnabled s
  | KhighContrast => highContrast s
  | KfocusEnabled => focusEnabled s
  | KcursorEnabled => cursorEnabled s
  | KtextSize => textSize s
  | Kspacing => spacing s
  | Kfont => font s
  | KimagesVisible => imagesVisible s
  | KshowPageStructure => showPageStructure s
  | KguideEnabled => guideEnabled s
  end.

(** The object a record is at run time, its properties in the order of the
    object literal that creates it. *)
Definition to_js (s : AccessibilitySettings) : json :=
  JObj (map (fun k => (lit (key_name k), field_js k (field k s))) all_keys).

(** A value is a fully populated settings record when each of the twelve
    properties is there and holds a value of its field's type. *)
Definition fully_populated (v : json) : Prop :=
  forall k : Key, exists x : FieldType k, prop (lit (key_name k)) v = Some (field_js k x).

(** ** The store: [localStorage] and the two effects that use it *)

Definition storageKey : jsstring := lit "accessibilitySettings".

Definition getItem (k : jsstring) (ls : gmap jsstring jsstring) : option jsstring :=
  ls !! k.

Definition setItem (k v : jsstring) (ls : gmap jsstring jsstring)
  : gmap jsstring jsstring :=
  <[k := v]> ls.

(** The first effect, run once after the first render: the value it passes
    to [setSettings], if it calls it.
<<
    const savedSettings = localStorage.getItem("accessibilitySettings");
    if (savedSettings) { setSettings(JSON.parse(savedSettings)); }
>> *)
Definition loadEffect (ls : gmap jsstring jsstring) : outcome (option json) :=
  match getItem storageKey ls with
  | Some savedSettings =>
      if truthy_string savedSettings then
        match JSON_parse savedSettings with
        | Some parsed => Ok (Some parsed)
        | None => Throw SyntaxError
        end
      else Ok None
  | None => Ok None
  end.

(** [load()]: the state the effect leaves in a freshly mounted component,
    whose state is [useState(defaultSettings)]. *)
Definition load (ls : gmap jsstring jsstring) : outcome json :=
  bind (loadEffect ls) (fun queued =>
    Ok (match queued with
        | Some parsed => parsed
        | None => to_js defaultSettings
        end)).

(** The second effect, run after every render in which [settings] changed.
<<
    localStorage.setItem("accessibilitySettings", JSON.stringify(settings));
>> *)
Definition save (settings : json) (ls : gmap jsstring jsstring)
  : gmap jsstring jsstring :=
  setItem storageKey (JSON_stringify settings) ls.

(** ** The state updates *)

(** [setSettings((prev) => ({ ...prev, [key]: value }))]. *)
Definition handleSettingChange (key : Key) (value : FieldType key) (prev : json) : json :=
  JObj (obj_set (lit (key_name key)) (field_js key value) (spread prev)).

(** [setSettings((prev) => ({ ...prev, showPageStructure: !prev.showPageStructure }))].
    Reading a property of [null] throws. *)
Definition togglePageStructure (prev : json) : outcome json :=
  match prev with
  | JNull => Throw TypeError
  | _ =>
      Ok (JObj (obj_set (lit "showPageStructure")
                  (JBool (negb (truthy (prop (lit "showPageStructure") prev))))
                  (spread prev)))
  end.

(** [setSettings(defaultSettings)]. *)
Definition resetSettings (prev : json) : json := to_js defaultSettings.

(** ** The component as a machine *)

(** What a button of the panel does. *)
Inductive action : Type :=
| Change (key : Key) (value : FieldType key)
| TogglePageStructure
| Reset.

(** The state of the component that matters to the store: the React state
    [settings], the contents of [localStorage], and the calls of
    [localStorage.setItem] made so far, latest first. *)
Record component : Type := Component {
  settings : json;
  storage : gmap jsstring jsstring;
  writes : list (jsstring * jsstring)
}.

Definition update (a : action) (prev : json) : outcome json :=
  match a with
  | Change key value => Ok (handleSettingChange key value prev)
  | TogglePageStructure => togglePageStructure prev
  | Reset => Ok (resetSettings prev)
  end.

(** A render in which [settings] became [next]: every update builds a fresh
    object, so the dependency [[settings]] has changed and the save effect
    runs. *)
Definition commit (next : json) (c : component) : component :=
  {| settings := next;
     storage := save next (storage c);
     writes := (storageKey, JSON_stringify next) :: writes c |}.

Definition dispatch (a : action) (c : component) : outcome component :=
  bind (update a (settings c)) (fun next => Ok (commit next c)).

Fixpoint run (acts : list action) (c : component) : outcome component :=
  match acts with
  | [] => Ok c
  | a :: rest => bind (dispatch a c) (run rest)
  end.

(** The component once the effects of its first render have run: that
    render has [settings = defaultSettings], and the save effect has written
    that first state. *)
Definition firstCommit (ls : gmap jsstring jsstring) : component :=
  commit (to_js defaultSettings) (Component (to_js defaultSettings) ls []).

(** Mounting: the first render has [settings = defaultSettings]; the load
    effect reads the store, the save effect then writes that first state, and
    a queued [setSettings] causes a second render and a second save.  That
    second render reads [settings.showPageStructure]: when the queued value is
    [null] it throws, after the first save and before any second one. *)
Definition mount (ls : gmap jsstring jsstring) : outcome component :=
  bind (loadEffect ls) (fun queued =>
    let first := firstCommit ls in
    match queued with
    | Some JNull => Throw TypeError
    | Some parsed => Ok (commit parsed first)
    | None => Ok first
    end).

(** ** The page *)

Local Open Scope string_scope.

(** A node of the page: text, or an element with its lower-case tag name,
    its attributes, its inline style and its children.  Page text is kept in
    8-bit characters. *)
Inductive node : Type :=
| Text (data : string)
| Element (tag : string) (attrs : gmap string string)
    (style : gmap string string) (children : list node).

(** The document: [document.documentElement] and its two children,
    [document.head] and [document.body], with the nodes below them.  The
    three carry no [id] the component looks for. *)
Record document : Type := Document {
  html_style : gmap string string;
  head_style : gmap string string;
  head : list node;
  body_style : gmap string string;
  body : list node
}.

(** [el.style.p = v]: the empty string removes the declaration.  An inline
    style is kept as the text that was assigned, property by property; every
    value the component assigns is valid CSS, so the assignment takes
    effect.  The map holds each declaration under the name it was assigned
    to.  The longhands a browser keeps for the shorthands [outline] and
    [animation], which it sets or removes with them, are not modelled. *)
Definition set_style (p v : string) (st : gmap string string) : gmap string string :=
  if decide (v = EmptyString) then delete p st else <[p := v]> st.

(** [querySelectorAll(sel).forEach(el => el.style.p = v)] below one node, for
    a selector that tests the tag name. *)
Fixpoint style_node (sel : string -> bool) (p v : string) (n : node) : node :=
  match n with
  | Text data => Text data
  | Element tag attrs st kids =>
      Element tag attrs (if sel tag then set_style p v st else st)
        (map (style_node sel p v) kids)
  end.

Definition style_where (sel : string -> bool) (p v : string) (d : document)
  : document :=
  {| html_style := if sel "html" then set_style p v (html_style d) else html_style d;
     head_style := if sel "head" then set_style p v (head_style d) else head_style d;
     head := map (style_node sel p v) (head d);
     body_style := if sel "body" then set_style p v (body_style d) else body_style d;
     body := map (style_node sel p v) (body d) |}.

Definition set_html_style (p v : string) (d : document) : document :=
  {| html_style := set_style p v (html_style d);
     head_style := head_style d;
     head := head d;
     body_style := body_style d;
     body := body d |}.

Definition set_body_style (p v : string) (d : document) : document :=
  {| html_style := html_style d;
     head_style := head_style d;
     head := head d;
     body_style := set_style p v (body_style d);
     body := body d |}.

(** The elements below a list of nodes that a selector matches, in document
    order. *)
Fixpoint select_node (sel : string -> bool) (n : node) : list node :=
  match n with
  | Text _ => []
  | Element tag attrs st kids =>
      (if sel tag then [n] else []) ++ flat_map (select_node sel) kids
  end.

Definition querySelectorAll (sel : string -> bool) (d : document) : list node :=
  flat_map (select_node sel) (head d) ++ flat_map (select_node sel) (body d).

Definition tag_is (t : string) (tag : string) : bool := bool_decide (tag = t).
Definition any_tag (tag : string) : bool := true.

Definition has_id (id : string) (n : node) : bool :=
  match n with
  | Text _ => false
  | Element _ attrs _ _ => bool_decide (attrs !! "id" = Some id)
  end.

(** The first element with a given id, in document order. *)
Fixpoint find_node (id : string) (n : node) : option node :=
  if has_id id n then Some n
  else match n with
       | Text _ => None
       | Element _ _ _ kids =>
           (fix first (l : list node) : option node :=
              match l with
              | [] => None
              | k :: l' => match find_node id k with
                           | Some e => Some e
                           | None => first l'
                           end
              end) kids
       end.

Fixpoint find_first (id : string) (l : list node) : option node :=
  match l with
  | [] => None
  | k :: l' => match find_node id k with
               | Some e => Some e
               | None => find_first id l'
               end
  end.

Definition getElementById (id : string) (d : document) : option node :=
  match find_first id (head d) with
  | Some e => Some e
  | None => find_first id (body d)
  end.

(** [e.remove()] for the first element with a given id: the nodes without
    it, or [None] when no element has the id. *)
Fixpoint remove_below (id : string) (n : node) : option node :=
  match n with
  | Text _ => None
  | Element tag attrs st kids =>
      option_map (Element tag attrs st)
        ((fix first (l : list node) : option (list node) :=
            match l with
            | [] => None
            | k :: l' =>
                if has_id id k then Some l'
                else match remove_below id k with
                     | Some k' => Some (k' :: l')
                     | None => option_map (cons k) (first l')
                     end
            end) kids)
  end.

Fixpoint remove_first (id : string) (l : list node) : option (list node) :=
  match l with
  | [] => None
  | k :: l' =>
      if has_id id k then Some l'
      else match remove_below id k with
           | Some k' => Some (k' :: l')
           | None => option_map (cons k) (remove_first id l')
           end
  end.

Definition removeById (id : string) (d : document) : document :=
  match remove_first id (head d) with
  | Some head' =>
      {| html_style := html_style d; head_style := head_style d; head := head';
         body_style := body_style d; body := body d |}
  | None =>
      match remove_first id (body d) with
      | Some body' =>
          {| html_style := html_style d; head_style := head_style d; head := head d;
             body_style := body_style d; body := body' |}
      | None => d
      end
  end.

Definition appendChild (n : node) (d : document) : document :=
  {| html_style := html_style d; head_style := head_style d; head := head d;
     body_style := body_style d; body := body d ++ [n] |}.

(** How many elements carry a given id. *)
Fixpoint count_node (id : string) (n : node) : nat :=
  match n with
  | Text _ => 0
  | Element _ _ _ kids =>
      ((if has_id id n then 1 else 0) + list_sum (map (count_node id) kids))%nat
  end.

Definition count_id (id : string) (d : document) : nat :=
  (list_sum (map (count_node id) (head d)) + list_sum (map (count_node id) (body d)))%nat.

(** ** String helpers of the runtime *)

Definition is_white (a : ascii) : bool :=
  let n := N_of_ascii a in
  ((9 <=? n) && (n <=? 13) || (n =? 32) || (n =? 160))%N.

Fixpoint trimStart (s : string) : string :=
  match s with
  | EmptyString => EmptyString
  | String a s' => if is_white a then trimStart s' else s
  end.

Fixpoint trimEnd (s : string) : string :=
  match s with
  | EmptyString => EmptyString
  | String a s' =>
      match trimEnd s' with
      | EmptyString => if is_white a then EmptyString else String a EmptyString
      | t => String a t
      end
  end.

(** [s.trim()]. *)
Definition trim (s : string) : string := trimEnd (trimStart s).

(** [s || d] on strings: the empty string is falsy. *)
Definition or_else (s d : string) : string :=
  match s with
  | EmptyString => d
  | _ => s
  end.

(** ** The third effect: applying the settings to the page *)

(** The value written to [document.documentElement.style.filter].
    [filterStr] starts as the empty string.
<<
    if (settings.highContrast) filterStr += " contrast(2)";
    if (settings.colorShift) filterStr += " invert(1)";
    ... = filterStr.trim() || "none";
>> *)
Definition filterValue (s : AccessibilitySettings) : string :=
  let filterStr := EmptyString in
  let filterStr := if highContrast s then filterStr ++ " contrast(2)" else filterStr in
  let filterStr := if colorShift s then filterStr ++ " invert(1)" else filterStr in
  or_else (trim filterStr) "none".

Definition guideId : string := "reading-guide-line".

(** The element [document.createElement("div")] becomes once its id and its
    eight style properties are set. *)
Definition guideLine : node :=
  Element "div" {[ "id" := guideId ]}
    (set_style "pointerEvents" "none"
      (set_style "zIndex" "1000"
        (set_style "backgroundColor" "red"
          (set_style "height" "2px"
            (set_style "width" "100%"
              (set_style "left" "0"
                (set_style "top" "50%"
                  (set_style "position" "fixed" ∅))))))))
    [].

(** The body of the effect, statement by statement. *)
Definition applySettings (s : AccessibilitySettings) (d : document) : document :=
  let d := style_where (tag_is "a") "backgroundColor"
             (if highlightLinks s then "#FFFF00" else EmptyString) d in
  let d := set_html_style "fontSize" (textSize_text (textSize s)) d in
  let d := set_html_style "filter" (filterValue s) d in
  let d := set_html_style "letterSpacing"
             (match spacing s with SpacingWide => "0.1em" | SpacingNormal => "normal" end) d in
  let d := set_html_style "fontFamily" (font_text (font s)) d in
  let d := set_html_style "animation"
             (if animationsEnabled s then EmptyString else "none") d in
  let d := style_where any_tag "outline"
             (if focusEnabled s then "2px solid #0000FF" else EmptyString) d in
  let d := set_body_style "cursor"
             (if cursorEnabled s then "pointer" else EmptyString) d in
  let d := style_where (tag_is "img") "display"
             (if imagesVisible s then "block" else "none") d in
  match guideEnabled s, getElementById guideId d with
  | true, None => appendChild guideLine d
  | true, Some _ => d
  | false, Some _ => removeById guideId d
  | false, None => d
  end.

(** ** The page-structure inspector *)

(** What the JSX of [renderPageStructure] evaluates to: text, an element with
    its class and children, a fragment, or the [false] that [cond && ...]
    leaves behind and React does not render. *)
Inductive vnode : Type :=
| VText (data : string)
| VElement (tag className : string) (children : list vnode)
| VFragment (children : list vnode)
| VFalse.

Definition is_landmark (tag : string) : bool :=
  tag_is "header" tag || tag_is "nav" tag || tag_is "main" tag || tag_is "footer" tag.

Definition is_heading (tag : string) : bool :=
  tag_is "h1" tag || tag_is "h2" tag || tag_is "h3" tag
  || tag_is "h4" tag || tag_is "h5" tag || tag_is "h6" tag.

(** [el.tagName.toLowerCase()], [el.id], [el.getAttribute(name)] and
    [el.textContent]. *)
Definition tagNameLower (n : node) : string :=
  match n with
  | Text _ => EmptyString
  | Element tag _ _ _ => tag
  end.

Definition getAttribute (name : string) (n : node) : option string :=
  match n with
  | Text _ => None
  | Element _ attrs _ _ => attrs !! name
  end.

Definition element_id (n : node) : string :=
  match getAttribute "id" n with
  | Some v => v
  | None => EmptyString
  end.

Fixpoint textContent (n : node) : string :=
  match n with
  | Text data => data
  | Element _ _ _ kids =>
      (fix all (l : list node) : string :=
         match l with
         | [] => EmptyString
         | k :: l' => textContent k ++ all l'
         end) kids
  end.

Definition landmarkItem (el : node) : vnode :=
  VElement "li" "text-sm text-gray-700"
    [VText (tagNameLower el); VText " (id: ";
     VText (or_else (element_id el) "N/A"); VText ")"].

Definition headingItem (el : node) : vnode :=
  VElement "li" "text-sm text-gray-700"
    [VText (tagNameLower el); VText ": ";
     VText (match textContent el with
            | EmptyString => "N/A"
            | t => trim t
            end)].

Definition linkItem (el : node) : vnode :=
  VElement "li" "text-sm text-gray-700"
    [VText (or_else (match getAttribute "href" el with
                     | Some v => v
                     | None => EmptyString
                     end) "N/A")].

(** [list.length > 0 && (<><h3>title</h3><ul>items</ul></>)]. *)
Definition pageSection (titleClass title : string) (item : node -> vnode)
  (els : list node) : vnode :=
  if (0 <? length els)%nat then
    VFragment [VElement "h3" titleClass [VText title];
               VElement "ul" "list-disc pl-5" (map item els)]
  else VFalse.

Definition renderPageStructure (d : document) : vnode :=
  let landmarks := querySelectorAll is_landmark d in
  let headings := querySelectorAll is_heading d in
  let links := querySelectorAll (tag_is "a") d in
  VElement "div" "text-left"
    [pageSection "font-semibold text-gray-800" "Landmarks" landmarkItem landmarks;
     pageSection "font-semibold text-gray-800 mt-4" "Headings" headingItem headings;
     pageSection "font-semibold text-gray-800 mt-4" "Links" linkItem links].





(** ** Two readings of the specification, to compare with the code *)

(** The defaults as the specification words them: every boolean false except
    [animationsEnabled] and [imagesVisible], text size and spacing normal,
    font sans-serif. *)
Definition documented_default (k : Key) : json :=
  match k with
  | KanimationsEnabled | KimagesVisible => JBool true
  | KtextSize => JStr (lit "1em")
  | Kspacing => JStr (lit "normal")
  | Kfont => JStr (lit "sans-serif")
  | _ => JBool false
  end.

(** The typed reading of [{ ...prev, [key]: value }]. *)
Definition with_field (k : Key) : FieldType k -> AccessibilitySettings -> AccessibilitySettings :=
  match k with
  | KhighlightLinks => fun v s =>
      Build_AccessibilitySettings v (colorShift s) (animationsEnabled s) (highContrast s)
        (focusEnabled s) (cursorEnabled s) (textSize s) (spacing s) (font s)
        (imagesVisible s) (showPageStructure s) (guideEnabled s)
  | KcolorShift => fun v s =>
      Build_AccessibilitySettings (highlightLinks s) v (animationsEnabled s) (highContrast s)
        (focusEnabled s) (cursorEnabled s) (textSize s) (spacing s) (font s)
        (imagesVisible s) (showPageStructure s) (guideEnabled s)
  | KanimationsEnabled => fun v s =>
      Build_AccessibilitySettings (highlightLinks s) (colorShift s) v (highContrast s)
        (focusEnabled s) (cursorEnabled s) (textSize s) (spacing s) (font s)
        (imagesVisible s) (showPageStructure s) (guideEnabled s)
  | KhighContrast => fun v s =>
      Build_AccessibilitySettings (highlightLinks s) (colorShift s) (animationsEnabled s) v
        (focusEnabled s) (cursorEnabled s) (textSize s) (spacing s) (font s)
        (imagesVisible s) (showPageStructure s) (guideEnabled s)
  | KfocusEnabled => fun v s =>
      Build_AccessibilitySettings (highlightLinks s) (colorShift s) (animationsEnabled s)
        (highContrast s) v (cursorEnabled s) (textSize s) (spacing s) (font s)
        (imagesVisible s) (showPageStructure s) (guideEnabled s)
  | KcursorEnabled => fun v s =>
      Build_AccessibilitySettings (highlightLinks s) (colorShift s) (animationsEnabled s)
        (highContrast s) (focusEnabled s) v (textSize s) (spacing s) (font s)
        (imagesVisible s) (showPageStructure s) (guideEnabled s)
  | KtextSize => fun v s =>
      Build_AccessibilitySettings (highlightLinks s) (colorShift s) (animationsEnabled s)
        (highContrast s) (focusEnabled s) (cursorEnabled s) v (spacing s) (font s)
        (imagesVisible s) (showPageStructure s) (guideEnabled s)
  | Kspacing => fun v s =>
      Build_AccessibilitySettings (highlightLinks s) (colorShift s) (animationsEnabled s)
        (highContrast s) (focusEnabled s) (cursorEnabled s) (textSize s) v (font s)
        (imagesVisible s) (showPageStructure s) (guideEnabled s)
  | Kfont => fun v s =>
      Build_AccessibilitySettings (highlightLinks s) (colorShift s) (animationsEnabled s)
        (highContrast s) (focusEnabled s) (cursorEnabled s) (textSize s) (spacing s) v
        (imagesVisible s) (showPageStructure s) (guideEnabled s)
  | KimagesVisible => fun v s =>
      Build_AccessibilitySettings (highlightLinks s) (colorShift s) (animationsEnabled s)
        (highContrast s) (focusEnabled s) (cursorEnabled s) (textSize s) (spacing s) (font s)
        v (showPageStructure s) (guideEnabled s)
  | KshowPageStructure => fun v s =>
      Build_AccessibilitySettings (highlightLinks s) (colorShift s) (animationsEnabled s)
        (highContrast s) (focusEnabled s) (cursorEnabled s) (textSize s) (spacing s) (font s)
        (imagesVisible s) v (guideEnabled s)
  | KguideEnabled => fun v s =>
      Build_AccessibilitySettings (highlightLinks s) (colorShift s) (animationsEnabled s)
        (highContrast s) (focusEnabled s) (cursorEnabled s) (textSize s) (spacing s) (font s)
        (imagesVisible s) (showPageStructure s) v
  end.

(** [s.includes(term)]. *)
Fixpoint includes (term s : string) : bool :=
  String.prefix term s
  || match s with
     | EmptyString => false
     | String _ s' => includes term s'
     end.

(** The inline [display] values of the page's images, in document order. *)
Definition style_of (n : node) : gmap string string :=
  match n with
  | Text _ => ∅
  | Element _ _ st _ => st
  end.

Definition image_displays (d : document) : list (option string) :=
  map (fun img => style_of img !! "display") (querySelectorAll (tag_is "img") d).

Definition is_element (n : node) : bool :=
  match n with
  | Element _ _ _ _ => true
  | Text _ => false
  end.

(** The inline [outline] of the reading-guide line, when there is one. *)
Definition guide_outline (d : document) : option string :=
  match getElementById guideId d with
  | Some e => style_of e !! "outline"
  | None => None
  end.

(** A page with an empty body, and the defaults with the focus outline and
    the reading guide switched on. *)
Definition blank_page : document := Document ∅ ∅ [] ∅ [].

Definition focus_and_guide : AccessibilitySettings :=
  with_field KguideEnabled true (with_field KfocusEnabled true defaultSettings).

(** A store the component itself could have left: nothing under the key, the
    empty string, or what [save] wrote for some record. *)
Definition well_kept (ls : gmap jsstring jsstring) : Prop :=
  getItem storageKey ls = None \/
  getItem storageKey ls = Some [] \/
  exists s : AccessibilitySettings,
    getItem storageKey ls = Some (JSON_stringify (to_js s)).

(** The state holds a record. *)
Definition holds_record (c : component) : Prop :=
  exists s : AccessibilitySettings, settings c = to_js s.

(** The text [JSON.stringify] writes for one field of a record, and the
    property [JSON.parse] adds to the object it is building when it has read
    that text. *)
Definition field_text (s : AccessibilitySettings) (k : Key) : jsstring :=
  (quote (lit (key_name k)) ++ [58] ++ JSON_stringify (field_js k (field k s)))%list.

Definition put_field (s : AccessibilitySettings) (o : list (jsstring * json)) (k : Key)
  : list (jsstring * json) :=
  obj_set (lit (key_name k)) (field_js k (field k s)) o.

(** The same effect in two parts: the nine style rules, then the rule for
    the reading-guide line. *)
Definition styleRules (s : AccessibilitySettings) (d : document) : document :=
  let d := style_where (tag_is "a") "backgroundColor"
             (if highlightLinks s then "#FFFF00" else EmptyString) d in
  let d := set_html_style "fontSize" (textSize_text (textSize s)) d in
  let d := set_html_style "filter" (filterValue s) d in
  let d := set_html_style "letterSpacing"
             (match spacing s with SpacingWide => "0.1em" | SpacingNormal => "normal" end) d in
  let d := set_html_style "fontFamily" (font_text (font s)) d in
  let d := set_html_style "animation"
             (if animationsEnabled s then EmptyString else "none") d in
  let d := style_where any_tag "outline"
             (if focusEnabled s then "2px solid #0000FF" else EmptyString) d in
  let d := set_body_style "cursor"
             (if cursorEnabled s then "pointer" else EmptyString) d in
  style_where (tag_is "img") "display"
    (if imagesVisible s then "block" else "none") d.

Definition guideRule (enabled : bool) (d : document) : document :=
  match enabled, getElementById guideId d with
  | true, None => appendChild guideLine d
  | true, Some _ => d
  | false, Some _ => removeById guideId d
  | false, None => d
  end.

(** A change of inline styles all over a tree, by tag name. *)
Fixpoint restyle (f : string -> gmap string string -> gmap string string) (n : node)
  : node :=
  match n with
  | Text data => Text data
  | Element tag attrs st kids => Element tag attrs (f tag st) (map (restyle f) kids)
  end.

(** What the style rules do to the inline style of an element below [head]
    or [body], to that of [html], and to that of [body]. *)
Definition elementRule (s : AccessibilitySettings) (tag : string)
  (st : gmap string string) : gmap string string :=
  let st := if tag_is "a" tag
            then set_style "backgroundColor"
                   (if highlightLinks s then "#FFFF00" else EmptyString) st
            else st in
  let st := set_style "outline"
              (if focusEnabled s then "2px solid #0000FF" else EmptyString) st in
  if tag_is "img" tag
  then set_style "display" (if imagesVisible s then "block" else "none") st
  else st.

Definition htmlRule (s : AccessibilitySettings) (st : gmap string string)
  : gmap string string :=
  set_style "outline" (if focusEnabled s then "2px solid #0000FF" else EmptyString)
    (set_style "animation" (if animationsEnabled s then EmptyString else "none")
      (set_style "fontFamily" (font_text (font s))
        (set_style "letterSpacing"
           (match spacing s with SpacingWide => "0.1em" | SpacingNormal => "normal" end)
          (set_style "filter" (filterValue s)
            (set_style "fontSize" (textSize_text (textSize s)) st))))).

Definition bodyRule (s : AccessibilitySettings) (st : gmap string string)
  : gmap string string :=
  set_style "cursor" (if cursorEnabled s then "pointer" else EmptyString)
    (set_style "outline" (if focusEnabled s then "2px solid #0000FF" else EmptyString) st).

Definition count_in (id : string) (l : list node) : nat :=
  list_sum (map (count_node id) l).

(** ** The widget shell and what it renders *)

(** What an [onClick] of the component does; a value computed from the state
    ([!isOpen], [!settings.focusEnabled]) is the one the render closed over. *)
Inductive handler : Type :=
| HSetIsOpen (v : bool)
| HSetIsHidden (v : bool)
| HSetIsRemoved (v : bool)
| HSettingChange (key : Key) (value : FieldType key)
| HTogglePageStructure
| HResetSettings.

(** An attribute of a JSX element: a string literal, or the JavaScript value
    of an expression ([None] is [undefined]). *)
Inductive attr : Type :=
| AText (s : string)
| AValue (v : option json).

(** What the JSX of the component evaluates to.  [WValue] is a JavaScript
    value in child position, as [cond && ...] leaves when [cond] is falsy;
    [WIcon] is [<AccessibilityIcon />]; [WStructure] is the result of
    [renderPageStructure()]; [WNull] is the [null] of a removed widget. *)
Inductive wnode : Type :=
| WText (data : string)
| WTag (tag : string) (attrs : list (string * attr)) (onClick : option handler)
    (children : list wnode)
| WIcon
| WStructure (v : vnode)
| WFragment (children : list wnode)
| WValue (v : option json)
| WNull.

(** [useState(false)] three times, beside the settings and the store. *)
Record widget : Type := Widget {
  isOpen : bool;
  isHidden : bool;
  isRemoved : bool;
  core : component
}.

(** [v === "text"]. *)
Definition is_string (text : string) (v : option json) : bool :=
  match v with
  | Some (JStr s) => jsstring_eqb s (lit text)
  | _ => false
  end.

(** [cond && node]. *)
Definition and_then (cond : option json) (node : wnode) : wnode :=
  if truthy cond then node else WValue cond.

(** A button of the options grid: its handler, its [aria-pressed], and the
    class that [highlighted] chooses. *)
Definition optionButton (h : handler) (pressed : option json) (highlighted : bool)
  (label : string) : wnode :=
  WTag "button"
    [("aria-pressed", AValue pressed);
     ("className",
      AText ("p-2 rounded focus:outline-none focus:ring-2 focus:ring-blue-400 "
             ++ (if highlighted then "bg-blue-200" else "bg-gray-200")))]
    (Some h) [WText label].

(** The twelve controls of the grid and the reset button, in source order. *)
Definition optionsGrid (settings : json) : wnode :=
  let get k := prop (lit k) settings in
  WTag "div" [("className", AText "grid grid-cols-2 gap-4")] None
    [optionButton (HSettingChange KfocusEnabled (negb (truthy (get "focusEnabled"))))
       (get "focusEnabled") (truthy (get "focusEnabled"))
       (if truthy (get "focusEnabled") then "Unfocus" else "Focus");
     optionButton (HSettingChange KcursorEnabled (negb (truthy (get "cursorEnabled"))))
       (get "cursorEnabled") (truthy (get "cursorEnabled"))
       (if truthy (get "cursorEnabled") then "Normal Cursor" else "Bigger Cursor");
     optionButton (HSettingChange KhighlightLinks (negb (truthy (get "highlightLinks"))))
       (get "highlightLinks") (truthy (get "highlightLinks"))
       (if truthy (get "highlightLinks") then "Remove Highlight" else "Highlight Links");
     optionButton (HSettingChange KhighContrast (negb (truthy (get "highContrast"))))
       (get "highContrast") (truthy (get "highContrast"))
       (if truthy (get "highContrast") then "Normal Contrast" else "Contrast");
     optionButton (HSettingChange KcolorShift (negb (truthy (get "colorShift"))))
       (get "colorShift") (truthy (get "colorShift"))
       (if truthy (get "colorShift") then "Normal Colors" else "Invert Colors");
     optionButton
       (HSettingChange KanimationsEnabled (negb (truthy (get "animationsEnabled"))))
       (Some (JBool (negb (truthy (get "animationsEnabled")))))
       (truthy (get "animationsEnabled"))
       (if truthy (get "animationsEnabled") then "Disable Animation" else "Enable Animation");
     optionButton (HSettingChange KtextSize Em1_25)
       (Some (JBool (is_string "1.25em" (get "textSize"))))
       (is_string "1.25em" (get "textSize")) "Bigger Text";
     optionButton (HSettingChange KtextSize Em1)
       (Some (JBool (is_string "1em" (get "textSize"))))
       (is_string "1em" (get "textSize")) "Normal Text";
     optionButton (HSettingChange Kfont Serif)
       (Some (JBool (is_string "serif" (get "font"))))
       (is_string "serif" (get "font")) "Serif Fonts";
     optionButton (HSettingChange KimagesVisible (negb (truthy (get "imagesVisible"))))
       (get "imagesVisible") (negb (truthy (get "imagesVisible")))
       (if truthy (get "imagesVisible") then "Hide Images" else "Show Images");
     optionButton (HSettingChange KguideEnabled (negb (truthy (get "guideEnabled"))))
       (get "guideEnabled") (truthy (get "guideEnabled"))
       (if truthy (get "guideEnabled") then "Disable Reading Line" else "Enable Reading Line");
     optionButton HTogglePageStructure
       (get "showPageStructure") (truthy (get "showPageStructure"))
       (if truthy (get "showPageStructure") then "Hide Tooltips" else "Show Tooltips");
     WTag "button"
       [("className",
         AText "p-2 col-span-2 bg-red-600 text-white rounded focus:outline-none focus:ring-2 focus:ring-red-400")]
       (Some HResetSettings) [WText "Reset to Default"]].

(** The options panel: its title, the three buttons of the shell, the grid. *)
Definition optionsPanel (settings : json) : wnode :=
  WTag "div"
    [("className",
      AText "bg-white shadow-lg rounded-lg p-4 mt-2 w-80 max-h-[80vh] overflow-y-auto");
     ("role", AText "dialog"); ("aria-modal", AText "true");
     ("aria-labelledby", AText "accessibility-options")]
    None
    [WTag "div" [("className", AText "flex justify-between items-center mb-4")] None
       [WTag "h2"
          [("id", AText "accessibility-options");
           ("className", AText "text-lg font-semibold text-blue-600")]
          None [WText "Accessibility Options"];
        WTag "div" [("className", AText "flex gap-2")] None
          [WTag "button"
             [("className",
               AText "text-gray-600 hover:text-gray-800 focus:outline-none focus:ring-2 focus:ring-gray-400 rounded");
              ("aria-label", AText "Close Accessibility Widget")]
             (Some (HSetIsOpen false)) [WText "Close"];
           WTag "button"
             [("className",
               AText "text-gray-600 hover:text-gray-800 focus:outline-none focus:ring-2 focus:ring-gray-400 rounded");
              ("aria-label", AText "Hide Accessibility Widget")]
             (Some (HSetIsHidden true)) [WText "Hide"];
           WTag "button"
             [("className",
               AText "text-red-600 hover:text-red-800 focus:outline-none focus:ring-2 focus:ring-red-400 rounded");
              ("aria-label", AText "Remove Accessibility Widget")]
             (Some (HSetIsRemoved true)) [WText "Remove"]]];
     optionsGrid settings].

(** The page-structure dialog. *)
Definition structureDialog (d : document) : wnode :=
  WTag "div"
    [("className",
      AText "fixed inset-0 bg-gray-900 bg-opacity-50 flex items-center justify-center z-50");
     ("role", AText "dialog"); ("aria-modal", AText "true");
     ("aria-labelledby", AText "page-structure")]
    None
    [WTag "div"
       [("className", AText "bg-white rounded-lg shadow-lg p-6 w-full max-w-md")] None
       [WTag "div" [("className", AText "flex justify-between items-center mb-4")] None
          [WTag "h2"
             [("id", AText "page-structure");
              ("className", AText "text-xl font-semibold text-gray-800")]
             None [WText "Page Structure"];
           WTag "button"
             [("className",
               AText "text-gray-600 hover:text-gray-800 focus:outline-none focus:ring-2 focus:ring-gray-400 rounded");
              ("aria-label", AText "Close Page Structure")]
             (Some HTogglePageStructure) [WText "Close"]];
        WStructure (renderPageStructure d)]].

(** What the component returns for settings other than [null]. *)
Definition widgetView (w : widget) (d : document) : wnode :=
  let settings := settings (core w) in
  WTag "div"
    [("className",
      AText ("fixed bottom-4 z-50 transition-transform "
             ++ (if isHidden w then "translate-x-full right-0" else "right-4")))]
    None
    [if isHidden w then
       WTag "button"
         [("className",
           AText "p-2 bg-blue-600 text-white rounded-l-full flex items-center justify-center fixed top-1/2 right-0 focus:outline-none focus:ring-2 focus:ring-blue-400");
          ("aria-label", AText "Show Accessibility Widget")]
         (Some (HSetIsHidden false)) [WText "Show Widget"]
     else
       WFragment
         [WTag "button"
            [("className",
              AText "p-3 bg-blue-600 text-white rounded-full shadow-lg flex items-center justify-center focus:outline-none focus:ring-2 focus:ring-blue-400");
             ("aria-label", AText "Toggle Accessibility Widget")]
            (Some (HSetIsOpen (negb (isOpen w)))) [WIcon];
          and_then (Some (JBool (isOpen w))) (optionsPanel settings)];
     and_then (prop (lit "showPageStructure") settings) (structureDialog d)].

(** The render of the component on the page [d]: [null] once removed; reading
    a property of [null] settings throws. *)
Definition render (w : widget) (d : document) : outcome wnode :=
  if isRemoved w then Ok WNull
  else match settings (core w) with
       | JNull => Throw TypeError
       | _ => Ok (widgetView w d)
       end.

(** The handlers a view offers, in document order. *)
Fixpoint handlers (v : wnode) : list handler :=
  match v with
  | WTag _ _ onClick kids =>
      (match onClick with Some h => [h] | None => [] end)
      ++ flat_map handlers kids
  | WFragment kids => flat_map handlers kids
  | _ => []
  end.

(** Whether a view holds the page-structure dialog. *)
Fixpoint shows_structure (v : wnode) : bool :=
  match v with
  | WStructure _ => true
  | WTag _ _ _ kids => existsb shows_structure kids
  | WFragment kids => existsb shows_structure kids
  | _ => false
  end.

Definition with_core (c : component) (w : widget) : widget :=
  {| isOpen := isOpen w; isHidden := isHidden w; isRemoved := isRemoved w; core := c |}.

(** Running a handler: a [useState] setter of the shell, or one of the three
    updates of the settings with the save it triggers. *)
Definition fire (h : handler) (w : widget) : outcome widget :=
  match h with
  | HSetIsOpen v =>
      Ok {| isOpen := v; isHidden := isHidden w; isRemoved := isRemoved w; core := core w |}
  | HSetIsHidden v =>
      Ok {| isOpen := isOpen w; isHidden := v; isRemoved := isRemoved w; core := core w |}
  | HSetIsRemoved v =>
      Ok {| isOpen := isOpen w; isHidden := isHidden w; isRemoved := v; core := core w |}
  | HSettingChange key value =>
      bind (dispatch (Change key value) (core w)) (fun c => Ok (with_core c w))
  | HTogglePageStructure =>
      bind (dispatch TogglePageStructure (core w)) (fun c => Ok (with_core c w))
  | HResetSettings =>
      bind (dispatch Reset (core w)) (fun c => Ok (with_core c w))
  end.

(** A click: the handler is one the current render offers. *)
Definition click (d : document) (h : handler) (w w' : widget) : Prop :=
  (exists v, render w d = Ok v /\ In h (handlers v)) /\ fire h w = Ok w'.

(** A session: clicks one after the other, each on what the render of the
    moment offers. *)
Inductive session (d : document) : widget -> list handler -> widget -> Prop :=
| session_end (w : widget) : session d w [] w
| session_click (w w1 w2 : widget) (h : handler) (hs : list handler) :
    click d h w w1 -> session d w1 hs w2 -> session d w (h :: hs) w2.

(** A freshly mounted widget. *)
Definition mountWidget (ls : gmap jsstring jsstring) : outcome widget :=
  bind (mount ls) (fun c => Ok (Widget false false false c)).

(** The typed reading of the handlers: what the render offers for a record,
    and what a handler makes of a record. *)
Definition gridHandlers (s : AccessibilitySettings) : list handler :=
  [HSettingChange KfocusEnabled (negb (focusEnabled s));
   HSettingChange KcursorEnabled (negb (cursorEnabled s));
   HSettingChange KhighlightLinks (negb (highlightLinks s));
   HSettingChange KhighContrast (negb (highContrast s));
   HSettingChange KcolorShift (negb (colorShift s));
   HSettingChange KanimationsEnabled (negb (animationsEnabled s));
   HSettingChange KtextSize Em1_25;
   HSettingChange KtextSize Em1;
   HSettingChange Kfont Serif;
   HSettingChange KimagesVisible (negb (imagesVisible s));
   HSettingChange KguideEnabled (negb (guideEnabled s));
   HTogglePageStructure;
   HResetSettings].

Definition offered (w : widget) (s : AccessibilitySettings) : list handler :=
  if isRemoved w then []
  else
    (if isHidden w then [HSetIsHidden false]
     else HSetIsOpen (negb (isOpen w))
          :: (if isOpen w
              then [HSetIsOpen false; HSetIsHidden true; HSetIsRemoved true]
                   ++ gridHandlers s
              else []))
    ++ (if showPageStructure s then [HTogglePageStructure] else []).

Definition settingsAfter (h : handler) (s : AccessibilitySettings) : AccessibilitySettings :=
  match h with
  | HSettingChange key value => with_field key value s
  | HTogglePageStructure => with_field KshowPageStructure (negb (showPageStructure s)) s
  | HResetSettings => defaultSettings
  | _ => s
  end.

(** The nine on/off controls of the grid, with the handler each one carries
    when the settings are the record [s]. *)
Inductive Toggle : Type :=
| TFocus | TCursor | TLinks | TContrast | TColorShift | TAnimations
| TImages | TGuide | TStructure.

Definition toggleHandler (t : Toggle) (s : AccessibilitySettings) : handler :=
  match t with
  | TFocus => HSettingChange KfocusEnabled (negb (focusEnabled s))
  | TCursor => HSettingChange KcursorEnabled (negb (cursorEnabled s))
  | TLinks => HSettingChange KhighlightLinks (negb (highlightLinks s))
  | TContrast => HSettingChange KhighContrast (negb (highContrast s))
  | TColorShift => HSettingChange KcolorShift (negb (colorShift s))
  | TAnimations => HSettingChange KanimationsEnabled (negb (animationsEnabled s))
  | TImages => HSettingChange KimagesVisible (negb (imagesVisible s))
  | TGuide => HSettingChange KguideEnabled (negb (guideEnabled s))
  | TStructure => HTogglePageStructure
  end.

Definition toggled (t : Toggle) (s : AccessibilitySettings) : AccessibilitySettings :=
  settingsAfter (toggleHandler t s) s.

(** ** The promotional dialog of [src/components/OrderModal.tsx] *)

(** The state of [OrderModal] and of what it talks to: [isOpen], the element
    registered by [Modal.setAppElement], the messages of [console.warn] and
    of [alert], latest first. *)
Record orderModal : Type := OrderModalState {
  modalIsOpen : bool;
  appElement : option node;
  warned : list string;
  alerted : list string
}.

(** [useState(true)], nothing registered, nothing said. *)
Definition orderModalMounted : orderModal :=
  {| modalIsOpen := true; appElement := None; warned := []; alerted := [] |}.

(** The effect run once after the first render.
<<
    if (typeof window !== "undefined") {
      const appElement = document.getElementById("__next");
      if (appElement) { Modal.setAppElement(appElement); }
      else { console.warn("App element with id '__next' not found."); }
    }
>> *)
Definition orderModalEffect (windowDefined : bool) (d : document) (m : orderModal)
  : orderModal :=
  if windowDefined then
    match getElementById "__next" d with
    | Some e =>
        {| modalIsOpen := modalIsOpen m; appElement := Some e;
           warned := warned m; alerted := alerted m |}
    | None =>
        {| modalIsOpen := modalIsOpen m; appElement := appElement m;
           warned := "App element with id '__next' not found." :: warned m;
           alerted := alerted m |}
    end
  else m.

(** What the dialog reacts to: its close button and [onRequestClose], which
    both call [closeModal], and its two order buttons. *)
Inductive modalEvent : Type :=
| ClickClose
| RequestClose
| ClickOrderDelivery
| ClickOrderPickup.

Definition closeModal (m : orderModal) : orderModal :=
  {| modalIsOpen := false; appElement := appElement m;
     warned := warned m; alerted := alerted m |}.

Definition alert (message : string) (m : orderModal) : orderModal :=
  {| modalIsOpen := modalIsOpen m; appElement := appElement m;
     warned := warned m; alerted := message :: alerted m |}.

Definition modalHandle (m : orderModal) (e : modalEvent) : orderModal :=
  match e with
  | ClickClose => closeModal m
  | RequestClose => closeModal m
  | ClickOrderDelivery => alert "Order Delivery Clicked" m
  | ClickOrderPickup => alert "Order Pickup Clicked" m
  end.

Definition closes (e : modalEvent) : bool :=
  match e with
  | ClickClose | RequestClose => true
  | _ => false
  end.

Definition alertOf (e : modalEvent) : list string :=
  match e with
  | ClickOrderDelivery => ["Order Delivery Clicked"]
  | ClickOrderPickup => ["Order Pickup Clicked"]
  | _ => []
  end.

(** ** Readings of the page used by the properties of the applier *)

(** The values the effect gives to the inline outline, to the background of
    links and to the cursor: [None] is a declaration that is not there. *)
Definition outlineOf (s : AccessibilitySettings) : option string :=
  if focusEnabled s then Some "2px solid #0000FF" else None.

Definition linkBackgroundOf (s : AccessibilitySettings) : option string :=
  if highlightLinks s then Some "#FFFF00" else None.

Definition cursorOf (s : AccessibilitySettings) : option string :=
  if cursorEnabled s then Some "pointer" else None.

(** A node without its inline styles, and those of its descendants: what is
    left is tags, attributes, text and the shape of the tree. *)
Definition skeleton (n : node) : node := restyle (fun _ _ => ∅) n.

(** The effect run for one settings record after the other, as it is when
    the settings change again and again. *)
Definition applyAll (ss : list AccessibilitySettings) (d : document) : document :=
  fold_left (fun page s => applySettings s page) ss d.

(** A page the effect has worked on, seen from the page [d0] it started
    from: the same nodes up to inline styles, and a guide line as last child
    of [body] when [shown]. *)
Definition worked_on (d0 : document) (shown : bool) (d : document) : Prop :=
  count_in guideId (head d) = 0%nat /\
  map skeleton (head d) = map skeleton (head d0) /\
  exists l g,
    body d = (l ++ (if shown then [g] else []))%list /\
    count_in guideId l = 0%nat /\
    map skeleton l = map skeleton (body d0) /\
    skeleton g = skeleton guideLine.

(** ** Readings of the actions used by the properties of the store *)

Definition same_key (k k' : Key) : bool := String.eqb (key_name k) (key_name k').

(** Whether an action writes the field [k]: a change of that very field, the
    page-structure toggle for [showPageStructure], and a reset for all. *)
Definition writes_field (k : Key) (a : action) : bool :=
  match a with
  | Change k' _ => same_key k k'
  | TogglePageStructure => same_key k KshowPageStructure
  | Reset => true
  end.

(** The three controls that set a value instead of switching one: Bigger
    Text, Normal Text and Serif Fonts, with the button each one is. *)
Inductive ValueControl : Type := CBiggerText | CNormalText | CSerifFonts.

Definition valueHandler (c : ValueControl) : handler :=
  match c with
  | CBiggerText => HSettingChange KtextSize Em1_25
  | CNormalText => HSettingChange KtextSize Em1
  | CSerifFonts => HSettingChange Kfont Serif
  end.

Definition valueIsSet (c : ValueControl) (s : AccessibilitySettings) : bool :=
  match c, textSize s, font s with
  | CBiggerText, Em1_25, _ => true
  | CNormalText, Em1, _ => true
  | CSerifFonts, _, Serif => true
  | _, _, _ => false
  end.

Definition valueButton (c : ValueControl) (s : AccessibilitySettings) : wnode :=
  optionButton (valueHandler c) (Some (JBool (valueIsSet c s))) (valueIsSet c s)
    (match c with
     | CBiggerText => "Bigger Text"
     | CNormalText => "Normal Text"
     | CSerifFonts => "Serif Fonts"
     end).

(** The buttons of a view, in document order. *)
Fixpoint buttonsOf (v : wnode) : list wnode :=
  match v with
  | WTag tag attrs onClick kids =>
      (if String.eqb tag "button" then [v] else []) ++ flat_map buttonsOf kids
  | WFragment kids => flat_map buttonsOf kids
  | _ => []
  end.

(** ** The nodes of the widget in the document *)

(** [document] is the whole document, and the nodes React DOM has created
    for the last render of the component are part of it: what
    [renderPageStructure] reads during a render is the page with those nodes
    in it. *)













(** * Properties *)

(** ** Objects: reading after writing *)

Lemma jsstring_eqb_spec (a b : jsstring) : reflect (a = b) (jsstring_eqb a b).
Proof.
  revert b. induction a as [|x a IH]; intros [|y b]; simpl;
    try (constructor; congruence).
  destruct (N.eqb_spec x y) as [->|Hxy]; simpl.
  - destruct (IH b) as [->|Hab]; constructor; congruence.
  - constructor. congruence.
Qed.

Lemma jsstring_eqb_refl (a : jsstring) : jsstring_eqb a a = true.
Proof. destruct (jsstring_eqb_spec a a); congruence. Qed.

Lemma jsstring_eqb_ne (a b : jsstring) : a <> b -> jsstring_eqb a b = false.
Proof. destruct (jsstring_eqb_spec a b); congruence. Qed.

Section ObjectLemmas.
Implicit Types (k n : jsstring) (v : json) (props : list (jsstring * json)).

Lemma obj_replace_get k v props props' :
  obj_replace k v props = Some props' ->
  obj_get k props' = Some v /\
  forall n, n <> k -> obj_get n props' = obj_get n props.
Proof.
  revert props'. induction props as [|[k' v'] rest IH]; intros props' H; simpl in H.
  - discriminate.
  - destruct (jsstring_eqb_spec k k') as [<-|Hk].
    + inversion H; subst. simpl. rewrite jsstring_eqb_refl. split; [reflexivity|].
      intros n Hn. rewrite (jsstring_eqb_ne n k Hn). reflexivity.
    + destruct (obj_replace k v rest) as [rest'|] eqn:E; [|discriminate].
      inversion H; subst. destruct (IH rest' eq_refl) as [IH1 IH2].
      simpl. rewrite (jsstring_eqb_ne k k' Hk). split; [exact IH1|].
      intros n Hn. destruct (jsstring_eqb n k'); [reflexivity|]. apply IH2, Hn.
Qed.

Lemma obj_insert_index_get i k v props :
  (obj_get k props = None -> obj_get k (obj_insert_index i k v props) = Some v) /\
  forall n, n <> k -> obj_get n (obj_insert_index i k v props) = obj_get n props.
Proof.
  induction props as [|[k' v'] rest [IH1 IH2]]; simpl.
  - split.
    + intros _. rewrite jsstring_eqb_refl. reflexivity.
    + intros n Hn. rewrite (jsstring_eqb_ne n k Hn). reflexivity.
  - destruct (array_index k') as [j|].
    + destruct (i <? j)%N; simpl.
      * split.
        -- intros _. rewrite jsstring_eqb_refl. reflexivity.
        -- intros n Hn. rewrite (jsstring_eqb_ne n k Hn). reflexivity.
      * split.
        -- destruct (jsstring_eqb k k'); [discriminate|]. exact IH1.
        -- intros n Hn. destruct (jsstring_eqb n k'); [reflexivity|]. apply IH2, Hn.
    + simpl. split.
      * intros _. rewrite jsstring_eqb_refl. reflexivity.
      * intros n Hn. rewrite (jsstring_eqb_ne n k Hn). reflexivity.
Qed.

Lemma obj_get_app n props props' :
  obj_get n (props ++ props') =
  match obj_get n props with
  | Some v => Some v
  | None => obj_get n props'
  end.
Proof.
  induction props as [|[k' v'] rest IH]; simpl; [reflexivity|].
  destruct (jsstring_eqb n k'); [reflexivity|exact IH].
Qed.

Lemma obj_replace_none k v props :
  obj_replace k v props = None -> obj_get k props = None.
Proof.
  induction props as [|[k' v'] rest IH]; simpl; [reflexivity|].
  destruct (jsstring_eqb k k'); [discriminate|].
  destruct (obj_replace k v rest); [discriminate|]. exact IH.
Qed.

(** [o[k] = v] then [o[k]] is [v]. *)
Lemma obj_get_set_eq k v props : obj_get k (obj_set k v props) = Some v.
Proof.
  unfold obj_set. destruct (obj_replace k v props) as [props'|] eqn:E.
  - apply (obj_replace_get _ _ _ _ E).
  - apply obj_replace_none in E. destruct (array_index k) as [i|].
    + apply obj_insert_index_get, E.
    + rewrite obj_get_app, E. simpl. rewrite jsstring_eqb_refl. reflexivity.
Qed.

(** [o[k] = v] leaves every other property as it was. *)
Lemma obj_get_set_ne k v props n :
  n <> k -> obj_get n (obj_set k v props) = obj_get n props.
Proof.
  intros Hn. unfold obj_set. destruct (obj_replace k v props) as [props'|] eqn:E.
  - apply (obj_replace_get _ _ _ _ E), Hn.
  - destruct (array_index k) as [i|].
    + apply obj_insert_index_get, Hn.
    + rewrite obj_get_app. destruct (obj_get n props); [reflexivity|].
      simpl. rewrite (jsstring_eqb_ne n k Hn). reflexivity.
Qed.
End ObjectLemmas.

(** ** Records at run time *)

(** Spreading a record copies it. *)
Lemma spread_to_js (s : AccessibilitySettings) :
  JObj (spread (to_js s)) = to_js s.
Proof. destruct s. reflexivity. Qed.

(** The runtime update is the typed one. *)
Lemma handleSettingChange_typed (k : Key) (v : FieldType k) (s : AccessibilitySettings) :
  handleSettingChange k v (to_js s) = to_js (with_field k v s).
Proof. destruct s, k; reflexivity. Qed.

Lemma togglePageStructure_typed (s : AccessibilitySettings) :
  togglePageStructure (to_js s) =
  Ok (to_js (with_field KshowPageStructure (negb (showPageStructure s)) s)).
Proof. destruct s. reflexivity. Qed.

Lemma to_js_populated (s : AccessibilitySettings) : fully_populated (to_js s).
Proof.
  intros k. exists (field k s). destruct s, k; reflexivity.
Qed.

(** ** Parsing what [JSON.stringify] wrote for a record *)

Lemma stringify_to_js (s : AccessibilitySettings) :
  JSON_stringify (to_js s) =
  ([123] ++ join_comma (map (field_text s) all_keys) ++ [125])%list.
Proof. reflexivity. Qed.

Lemma steps_app (st : pstate) (a b : jsstring) :
  steps st (a ++ b)%list =
  match steps st a with
  | Some st' => steps st' b
  | None => None
  end.
Proof.
  revert st. induction a as [|c a IH]; intros st; simpl; [reflexivity|].
  destruct (step st c); [apply IH|reflexivity].
Qed.

(** One ["key":value] of a record, read inside an open object. *)
Lemma steps_field (s : AccessibilitySettings) (k : Key) (x : expect)
  (props : list (jsstring * json)) :
  key_allowed x = true ->
  steps (PState MIdle x [FObj props None]) (field_text s k) =
  Some (PState MIdle XCommaOrClose [FObj (put_field s props k) None]).
Proof.
  intros Hx.
  destruct x; try discriminate Hx;
    destruct s as [a1 a2 a3 a4 a5 a6 a7 a8 a9 a10 a11 a12];
    destruct k; unfold field_text, put_field, field, field_js;
    cbn [highlightLinks colorShift animationsEnabled highContrast focusEnabled
         cursorEnabled textSize spacing font imagesVisible showPageStructure
         guideEnabled];
    match goal with
    | |- context [JBool ?b] => destruct b
    | |- context [textSize_text ?t] => destruct t
    | |- context [spacing_text ?t] => destruct t
    | |- context [font_text ?t] => destruct t
    end; vm_compute; reflexivity.
Qed.

Lemma steps_fields (s : AccessibilitySettings) (ks : list Key) (k : Key) (x : expect)
  (props : list (jsstring * json)) :
  key_allowed x = true ->
  steps (PState MIdle x [FObj props None]) (join_comma (map (field_text s) (k :: ks))) =
  Some (PState MIdle XCommaOrClose [FObj (fold_left (put_field s) (k :: ks) props) None]).
Proof.
  revert k x props. induction ks as [|k' ks IH]; intros k x props Hx.
  - simpl. apply steps_field, Hx.
  - change (join_comma (map (field_text s) (k :: k' :: ks)))
      with (field_text s k ++ 44 :: join_comma (map (field_text s) (k' :: ks)))%list.
    rewrite steps_app, (steps_field s k x props Hx).
    exact (IH k' XKey (put_field s props k) eq_refl).
Qed.

Lemma parse_stringify_to_js (s : AccessibilitySettings) :
  JSON_parse (JSON_stringify (to_js s)) = Some (to_js s).
Proof.
  rewrite stringify_to_js. unfold JSON_parse.
  rewrite steps_app.
  replace (steps (PState MIdle XValue []) [123])
    with (Some (PState MIdle XKeyOrClose [FObj [] None])) by reflexivity.
  rewrite steps_app.
  unfold all_keys at 1.
  rewrite (steps_fields s _ _ XKeyOrClose [] eq_refl).
  destruct s. reflexivity.
Qed.


Lemma stringify_to_js_truthy (s : AccessibilitySettings) :
  truthy_string (JSON_stringify (to_js s)) = true.
Proof. rewrite stringify_to_js. reflexivity. Qed.

(** ** The store *)

Lemma getItem_save (v : json) (ls : gmap jsstring jsstring) :
  getItem storageKey (save v ls) = Some (JSON_stringify v).
Proof. unfold getItem, save, setItem. apply lookup_insert_eq. Qed.

Lemma getItem_save_other (v : json) (ls : gmap jsstring jsstring) (k : jsstring) :
  k <> storageKey -> getItem k (save v ls) = getItem k ls.
Proof.
  intros Hk. unfold getItem, save, setItem. apply lookup_insert_ne. congruence.
Qed.

Lemma load_saved (s : AccessibilitySettings) (ls : gmap jsstring jsstring) :
  getItem storageKey ls = Some (JSON_stringify (to_js s)) -> load ls = Ok (to_js s).
Proof.
  intros H. unfold load, loadEffect.
  rewrite H, stringify_to_js_truthy, parse_stringify_to_js. reflexivity.
Qed.

(** C1, as the code has it: [load] is total; it returns the default record
    when the key is missing or the stored string is empty, returns whatever
    the stored string deserializes to, and raises the [SyntaxError] of
    [JSON.parse] to its caller when the string does not deserialize. *)
Theorem load_outcomes (ls : gmap jsstring jsstring) :
  (getItem storageKey ls = None -> load ls = Ok (to_js defaultSettings)) /\
  (getItem storageKey ls = Some [] -> load ls = Ok (to_js defaultSettings)) /\
  (forall text v, getItem storageKey ls = Some text -> text <> [] ->
     JSON_parse text = Some v -> load ls = Ok v) /\
  (forall text, getItem storageKey ls = Some text -> text <> [] ->
     JSON_parse text = None -> load ls = Throw SyntaxError).
Proof.
  unfold load, loadEffect. repeat split.
  - intros ->. reflexivity.
  - intros ->. reflexivity.
  - intros text v -> Hne ->. destruct text; [congruence|reflexivity].
  - intros text -> Hne ->. destruct text; [congruence|reflexivity].
Qed.

Lemma load_outcomes_witness :
  load (setItem storageKey (lit "{}") ∅) = Ok (JObj []).
Proof.
  apply (proj1 (proj2 (proj2 (load_outcomes (setItem storageKey (lit "{}") ∅))))
           (lit "{}")).
  - reflexivity.
  - discriminate.
  - reflexivity.
Defined.

(** C1 fails as stated: a stored text that does not deserialize makes [load]
    throw instead of returning the defaults. *)
Lemma load_corrupt_store_throws :
  let ls := setItem storageKey (lit "{") ∅ in
  JSON_parse (lit "{") = None /\
  load ls = Throw SyntaxError /\
  load ls <> Ok (to_js defaultSettings).
Proof. repeat split. discriminate. Qed.

(** C3: [save(S)] followed by [load()] returns [S], for every record [S] and
    whatever the store held before. *)
Theorem save_load_roundtrip (s : AccessibilitySettings) (ls : gmap jsstring jsstring) :
  load (save (to_js s) ls) = Ok (to_js s).
Proof.
  unfold load, loadEffect.
  rewrite getItem_save.
  rewrite stringify_to_js_truthy.
  rewrite parse_stringify_to_js.
  reflexivity.
Qed.

(** ** The state updates *)

(** C9: [handleSettingChange(K, v)] sets field [K] to [v] and leaves every
    other property of the record as it was; [togglePageStructure] negates
    [showPageStructure] and leaves every other property as it was. *)
Theorem single_field_updates (s : AccessibilitySettings) (k : Key) (v : FieldType k) :
  (prop (lit (key_name k)) (handleSettingChange k v (to_js s)) = Some (field_js k v) /\
   forall n, n <> lit (key_name k) ->
     prop n (handleSettingChange k v (to_js s)) = prop n (to_js s)) /\
  exists next, togglePageStructure (to_js s) = Ok next /\
    prop (lit "showPageStructure") next = Some (JBool (negb (showPageStructure s))) /\
    forall n, n <> lit "showPageStructure" -> prop n next = prop n (to_js s).
Proof.
  split.
  - unfold handleSettingChange. cbn [prop]. split.
    + apply obj_get_set_eq.
    + intros n Hn. rewrite obj_get_set_ne by exact Hn.
      change (obj_get n (spread (to_js s))) with (prop n (JObj (spread (to_js s)))).
      rewrite spread_to_js. reflexivity.
  - eexists. split; [reflexivity|]. cbn [prop]. split.
    + rewrite obj_get_set_eq. destruct s. reflexivity.
    + intros n Hn. rewrite obj_get_set_ne by exact Hn.
      change (obj_get n (spread (to_js s))) with (prop n (JObj (spread (to_js s)))).
      rewrite spread_to_js. reflexivity.
Qed.

Lemma single_field_updates_witness :
  prop (lit "font") (handleSettingChange KtextSize Em1_25 (to_js defaultSettings))
  = Some (JStr (lit "sans-serif")).
Proof.
  rewrite (proj2 (proj1 (single_field_updates defaultSettings KtextSize Em1_25))).
  - reflexivity.
  - discriminate.
Defined.

(** ** The machine *)

Lemma update_record (a : action) (s : AccessibilitySettings) :
  exists s' : AccessibilitySettings, update a (to_js s) = Ok (to_js s').
Proof.
  destruct a as [k v| |]; cbn [update].
  - rewrite handleSettingChange_typed. eexists. reflexivity.
  - rewrite togglePageStructure_typed. eexists. reflexivity.
  - exists defaultSettings. reflexivity.
Qed.

Lemma dispatch_record (a : action) (c : component) :
  holds_record c -> exists c', dispatch a c = Ok c' /\ holds_record c'.
Proof.
  intros [s Hs]. unfold dispatch. rewrite Hs.
  destruct (update_record a s) as [s' ->]. simpl.
  eexists. split; [reflexivity|]. exists s'. reflexivity.
Qed.

Lemma run_record (acts : list action) (c : component) :
  holds_record c -> exists c', run acts c = Ok c' /\ holds_record c'.
Proof.
  revert c. induction acts as [|a acts IH]; intros c Hc; simpl.
  - exists c. split; [reflexivity|exact Hc].
  - destruct (dispatch_record a c Hc) as (c1 & -> & Hc1). simpl. apply IH, Hc1.
Qed.

Lemma holds_record_populated (c : component) :
  holds_record c -> fully_populated (settings c).
Proof. intros [s ->]. apply to_js_populated. Qed.

Lemma mount_well_kept (ls : gmap jsstring jsstring) :
  well_kept ls -> exists c, mount ls = Ok c /\ holds_record c /\ load ls = Ok (settings c).
Proof.
  unfold mount, load, loadEffect. intros [H|[H|[s H]]]; rewrite H.
  - eexists. split; [reflexivity|]. split; [exists defaultSettings|]; reflexivity.
  - eexists. split; [reflexivity|]. split; [exists defaultSettings|]; reflexivity.
  - rewrite stringify_to_js_truthy, parse_stringify_to_js.
    eexists. split; [reflexivity|]. split; [exists s|]; reflexivity.
Qed.

(** C2, as the code has it: when the store holds nothing under the key, the
    empty string, or the serialization of a record, the in-memory settings
    are fully populated after the mount-time load and stay so after any
    sequence of mutations and resets. *)
Theorem settings_stay_populated (ls : gmap jsstring jsstring) (acts : list action) :
  well_kept ls ->
  exists c c',
    mount ls = Ok c /\ load ls = Ok (settings c) /\ fully_populated (settings c) /\
    run acts c = Ok c' /\ fully_populated (settings c').
Proof.
  intros H. destruct (mount_well_kept ls H) as (c & Hm & Hc & Hl).
  destruct (run_record acts c Hc) as (c' & Hr & Hc').
  exists c, c'. repeat split; auto using holds_record_populated.
Qed.

Lemma settings_stay_populated_witness :
  exists c c',
    mount ∅ = Ok c /\ load ∅ = Ok (settings c) /\ fully_populated (settings c) /\
    run [Change KtextSize Em1_25; TogglePageStructure; Reset] c = Ok c' /\
    fully_populated (settings c').
Proof.
  apply (settings_stay_populated ∅). left. reflexivity.
Defined.

(** C2 fails as stated: a stored text that deserializes to something else
    than a record becomes the in-memory settings as it is, here an object
    with no field at all; and a text that does not deserialize gives no
    settings, it makes mounting throw. *)
Lemma stored_empty_object_not_populated :
  (exists c, mount (setItem storageKey (lit "{}") ∅) = Ok c /\
             settings c = JObj [] /\ ~ fully_populated (settings c)) /\
  mount (setItem storageKey (lit "{") ∅) = Throw SyntaxError.
Proof.
  split; [|reflexivity].
  eexists. split; [reflexivity|]. split; [reflexivity|].
  intros H. destruct (H KtextSize) as [x Hx]. discriminate Hx.
Qed.

(** C4: after any sequence of mutations from any record, reset makes the
    settings the default record, field by field as documented, and the store
    holds that default record: loading it gives the defaults back. *)
Theorem reset_restores_defaults (s : AccessibilitySettings)
  (ls : gmap jsstring jsstring) (w : list (jsstring * jsstring)) (acts : list action) :
  exists c c',
    run acts (Component (to_js s) ls w) = Ok c /\
    dispatch Reset c = Ok c' /\
    settings c' = to_js defaultSettings /\
    (forall k, prop (lit (key_name k)) (settings c') = Some (documented_default k)) /\
    getItem storageKey (storage c') = Some (JSON_stringify (to_js defaultSettings)) /\
    load (storage c') = Ok (to_js defaultSettings).
Proof.
  destruct (run_record acts (Component (to_js s) ls w)) as (c & Hr & _).
  { exists s. reflexivity. }
  exists c. eexists. split; [exact Hr|]. split; [reflexivity|].
  cbn [settings storage commit resetSettings]. split; [reflexivity|]. split.
  - intros k. destruct k; reflexivity.
  - split; [apply getItem_save|apply load_saved, getItem_save].
Qed.

(** C7: every mutation of settings other than [null] succeeds and makes
    exactly one call of [setItem], under the fixed key, with the serialization
    of the new in-memory settings; that text replaces what the key held and
    no other key changes. *)
Theorem mutation_saves_once (a : action) (c : component) :
  settings c <> JNull ->
  exists c',
    dispatch a c = Ok c' /\
    update a (settings c) = Ok (settings c') /\
    writes c' = (storageKey, JSON_stringify (settings c')) :: writes c /\
    storage c' = setItem storageKey (JSON_stringify (settings c')) (storage c) /\
    getItem storageKey (storage c') = Some (JSON_stringify (settings c')) /\
    forall k, k <> storageKey -> getItem k (storage c') = getItem k (storage c).
Proof.
  intros Hnull. unfold dispatch.
  assert (exists next, update a (settings c) = Ok next) as [next Hnext].
  { destruct a; simpl; try (eexists; reflexivity).
    destruct (settings c); try congruence; eexists; reflexivity. }
  rewrite Hnext. simpl. eexists. split; [reflexivity|].
  cbn [settings storage writes commit]. repeat split.
  - apply getItem_save.
  - intros k Hk. apply getItem_save_other, Hk.
Qed.

Lemma mutation_saves_once_witness :
  exists c',
    dispatch TogglePageStructure (Component (to_js defaultSettings) ∅ []) = Ok c' /\
    update TogglePageStructure (to_js defaultSettings) = Ok (settings c') /\
    writes c' = [(storageKey, JSON_stringify (settings c'))] /\
    storage c' = setItem storageKey (JSON_stringify (settings c')) ∅ /\
    getItem storageKey (storage c') = Some (JSON_stringify (settings c')) /\
    forall k, k <> storageKey -> getItem k (storage c') = getItem k ∅.
Proof.
  apply (mutation_saves_once TogglePageStructure (Component (to_js defaultSettings) ∅ [])).
  discriminate.
Defined.

(** ** Inline styles *)

Lemma lookup_set_style_eq (p v : string) (st : gmap string string) :
  v <> EmptyString -> set_style p v st !! p = Some v.
Proof.
  intros Hv. unfold set_style. destruct (decide (v = EmptyString)); [congruence|].
  apply lookup_insert_eq.
Qed.

Lemma lookup_set_style_ne (p q v : string) (st : gmap string string) :
  p <> q -> set_style p v st !! q = st !! q.
Proof.
  intros Hpq. unfold set_style. destruct (decide (v = EmptyString)).
  - apply lookup_delete_ne, Hpq.
  - apply lookup_insert_ne, Hpq.
Qed.

Lemma html_style_guide_step (b : bool) (d : document) :
  html_style (match b, getElementById guideId d with
              | true, None => appendChild guideLine d
              | true, Some _ => d
              | false, Some _ => removeById guideId d
              | false, None => d
              end) = html_style d.
Proof.
  destruct b, (getElementById guideId d); try reflexivity.
  unfold removeById. destruct (remove_first guideId (head d)); [reflexivity|].
  destruct (remove_first guideId (body d)); reflexivity.
Qed.

Lemma html_filter_applySettings (s : AccessibilitySettings) (d : document) :
  html_style (applySettings s d) !! "filter" = Some (filterValue s).
Proof.
  unfold applySettings. rewrite html_style_guide_step.
  cbn [style_where set_html_style set_body_style html_style any_tag].
  change (tag_is "img" "html") with false.
  change (tag_is "a" "html") with false. cbv iota.
  rewrite !(lookup_set_style_ne _ "filter") by discriminate.
  apply lookup_set_style_eq.
  unfold filterValue. destruct (highContrast s), (colorShift s); discriminate.
Qed.

(** ** The filter *)

(** C6: the filter written to the page is a function of [highContrast] and
    [colorShift] only: the contrast term alone, both terms, the invert term
    alone, or ["none"]; it contains the contrast term exactly when
    [highContrast] is set and the invert term exactly when [colorShift] is. *)
Theorem filter_of_contrast_and_shift (s : AccessibilitySettings) (d : document) :
  html_style (applySettings s d) !! "filter" = Some (filterValue s) /\
  filterValue s =
    match highContrast s, colorShift s with
    | true, false => "contrast(2)"
    | true, true => "contrast(2) invert(1)"
    | false, true => "invert(1)"
    | false, false => "none"
    end /\
  includes "contrast(2)" (filterValue s) = highContrast s /\
  includes "invert(1)" (filterValue s) = colorShift s /\
  forall s', highContrast s' = highContrast s -> colorShift s' = colorShift s ->
    filterValue s' = filterValue s.
Proof.
  split; [|split; [|split; [|split]]].
  - apply html_filter_applySettings.
  - unfold filterValue. destruct (highContrast s), (colorShift s); reflexivity.
  - unfold filterValue. destruct (highContrast s), (colorShift s); reflexivity.
  - unfold filterValue. destruct (highContrast s), (colorShift s); reflexivity.
  - intros s' H1 H2. unfold filterValue. rewrite H1, H2. reflexivity.
Qed.

Lemma filter_of_contrast_and_shift_witness :
  filterValue (with_field KhighlightLinks true
                 (with_field KhighContrast true defaultSettings))
  = filterValue (with_field KhighContrast true defaultSettings).
Proof.
  apply (proj2 (proj2 (proj2 (proj2
    (filter_of_contrast_and_shift
       (with_field KhighContrast true defaultSettings) (Document ∅ ∅ [] ∅ [])))))).
  - reflexivity.
  - reflexivity.
Defined.

(** ** The page-structure inspector *)


(** ** Trees *)

(** Induction on a node with the hypothesis for every child. *)
Lemma node_ind' (P : node -> Prop) :
  (forall data, P (Text data)) ->
  (forall tag attrs st kids, Forall P kids -> P (Element tag attrs st kids)) ->
  forall n, P n.
Proof.
  intros HText HElement. fix IH 1. intros [data|tag attrs st kids].
  - apply HText.
  - apply HElement. induction kids as [|k kids IHkids]; constructor.
    + apply IH.
    + exact IHkids.
Qed.

Lemma remove_below_element (id tag : string) (attrs st : gmap string string)
  (kids : list node) :
  remove_below id (Element tag attrs st kids) =
  option_map (Element tag attrs st) (remove_first id kids).
Proof.
  simpl. f_equal. induction kids as [|k kids IH]; simpl; [reflexivity|].
  destruct (has_id id k); [reflexivity|].
  destruct (remove_below id k); [reflexivity|]. rewrite IH. reflexivity.
Qed.

Lemma find_node_element (id tag : string) (attrs st : gmap string string)
  (kids : list node) :
  find_node id (Element tag attrs st kids) =
  if has_id id (Element tag attrs st kids) then Some (Element tag attrs st kids)
  else find_first id kids.
Proof.
  simpl. destruct (bool_decide _); [reflexivity|].
  induction kids as [|k kids IH]; simpl; [reflexivity|].
  destruct (find_node id k); [reflexivity|exact IH].
Qed.

Lemma Forall_flat_map {A B : Type} (P : B -> Prop) (f : A -> list B) (l : list A) :
  Forall (fun x => Forall P (f x)) l -> Forall P (flat_map f l).
Proof.
  induction 1 as [|x l Hx _ IH]; simpl; [constructor|].
  apply Forall_app. split; assumption.
Qed.

(** ** Images *)

Lemma querySelectorAll_img_append_guide (d : document) :
  querySelectorAll (tag_is "img") (appendChild guideLine d) =
  querySelectorAll (tag_is "img") d.
Proof.
  unfold querySelectorAll, appendChild. cbn [head body].
  rewrite flat_map_app. simpl. rewrite !app_nil_r. reflexivity.
Qed.

(** ** Applying the same settings twice *)

(** C5 at a failing input: on a blank page, with the focus outline and the
    reading guide on, the first application creates the guide line after the
    outlines were set, so the line has none; the second application finds
    the line among the elements and outlines it.  The page after two
    applications is not the page after one. *)
Theorem second_apply_outlines_guide :
  guide_outline (applySettings focus_and_guide blank_page) = None /\
  guide_outline (applySettings focus_and_guide (applySettings focus_and_guide blank_page))
  = Some "2px solid #0000FF" /\
  applySettings focus_and_guide (applySettings focus_and_guide blank_page)
  <> applySettings focus_and_guide blank_page.
Proof.
  assert (guide_outline (applySettings focus_and_guide blank_page) = None) as H1
    by (vm_compute; reflexivity).
  assert (guide_outline
            (applySettings focus_and_guide (applySettings focus_and_guide blank_page))
          = Some "2px solid #0000FF") as H2 by (vm_compute; reflexivity).
  split; [exact H1|]. split; [exact H2|].
  intros Heq. rewrite Heq, H1 in H2. discriminate H2.
Qed.

(** ** The style rules as one change per element *)

Lemma applySettings_parts (s : AccessibilitySettings) (d : document) :
  applySettings s d = guideRule (guideEnabled s) (styleRules s d).
Proof. reflexivity. Qed.

Lemma style_node_restyle (sel : string -> bool) (p v : string) (n : node) :
  style_node sel p v n = restyle (fun tag st => if sel tag then set_style p v st else st) n.
Proof.
  induction n as [data|tag attrs st kids IH] using node_ind'; simpl; [reflexivity|].
  f_equal. apply map_ext_Forall, IH.
Qed.

Lemma restyle_restyle (f g : string -> gmap string string -> gmap string string)
  (n : node) :
  restyle f (restyle g n) = restyle (fun tag st => f tag (g tag st)) n.
Proof.
  induction n as [data|tag attrs st kids IH] using node_ind'; simpl; [reflexivity|].
  f_equal. rewrite map_map. apply map_ext_Forall, IH.
Qed.

Lemma restyle_ext (f g : string -> gmap string string -> gmap string string)
  (n : node) :
  (forall tag st, f tag st = g tag st) -> restyle f n = restyle g n.
Proof.
  intros Hfg. induction n as [data|tag attrs st kids IH] using node_ind'; simpl;
    [reflexivity|].
  rewrite Hfg. f_equal. apply map_ext_Forall, IH.
Qed.

Lemma document_eq (d d' : document) :
  html_style d = html_style d' -> head_style d = head_style d' -> head d = head d' ->
  body_style d = body_style d' -> body d = body d' -> d = d'.
Proof. destruct d, d'. simpl. intros -> -> -> -> ->. reflexivity. Qed.

Lemma style_where_html sel p v d :
  html_style (style_where sel p v d) =
  if sel "html" then set_style p v (html_style d) else html_style d.
Proof. reflexivity. Qed.
Lemma style_where_head_style sel p v d :
  head_style (style_where sel p v d) =
  if sel "head" then set_style p v (head_style d) else head_style d.
Proof. reflexivity. Qed.
Lemma style_where_body_style sel p v d :
  body_style (style_where sel p v d) =
  if sel "body" then set_style p v (body_style d) else body_style d.
Proof. reflexivity. Qed.
Lemma style_where_head sel p v d :
  head (style_where sel p v d) = map (style_node sel p v) (head d).
Proof. reflexivity. Qed.
Lemma style_where_body sel p v d :
  body (style_where sel p v d) = map (style_node sel p v) (body d).
Proof. reflexivity. Qed.
Lemma set_html_style_html p v d :
  html_style (set_html_style p v d) = set_style p v (html_style d).
Proof. reflexivity. Qed.
Lemma set_html_style_head_style p v d :
  head_style (set_html_style p v d) = head_style d.
Proof. reflexivity. Qed.
Lemma set_html_style_head p v d : head (set_html_style p v d) = head d.
Proof. reflexivity. Qed.
Lemma set_html_style_body_style p v d :
  body_style (set_html_style p v d) = body_style d.
Proof. reflexivity. Qed.
Lemma set_html_style_body p v d : body (set_html_style p v d) = body d.
Proof. reflexivity. Qed.
Lemma set_body_style_html p v d :
  html_style (set_body_style p v d) = html_style d.
Proof. reflexivity. Qed.
Lemma set_body_style_head_style p v d :
  head_style (set_body_style p v d) = head_style d.
Proof. reflexivity. Qed.
Lemma set_body_style_head p v d : head (set_body_style p v d) = head d.
Proof. reflexivity. Qed.
Lemma set_body_style_body_style p v d :
  body_style (set_body_style p v d) = set_style p v (body_style d).
Proof. reflexivity. Qed.
Lemma set_body_style_body p v d : body (set_body_style p v d) = body d.
Proof. reflexivity. Qed.

Create Rewrite HintDb page.
#[local] Hint Rewrite
  style_where_html style_where_head_style style_where_body_style
  style_where_head style_where_body
  set_html_style_html set_html_style_head_style set_html_style_head
  set_html_style_body_style set_html_style_body
  set_body_style_html set_body_style_head_style set_body_style_head
  set_body_style_body_style set_body_style_body : page.

Lemma elementRule_nodes (s : AccessibilitySettings) (l : list node) :
  map (style_node (tag_is "img") "display" (if imagesVisible s then "block" else "none"))
    (map (style_node any_tag "outline"
            (if focusEnabled s then "2px solid #0000FF" else EmptyString))
       (map (style_node (tag_is "a") "backgroundColor"
               (if highlightLinks s then "#FFFF00" else EmptyString)) l))
  = map (restyle (elementRule s)) l.
Proof.
  rewrite !map_map. apply map_ext. intros n.
  rewrite !style_node_restyle, !restyle_restyle. reflexivity.
Qed.

Lemma styleRules_fields (s : AccessibilitySettings) (d : document) :
  styleRules s d =
  {| html_style := htmlRule s (html_style d);
     head_style := set_style "outline"
                     (if focusEnabled s then "2px solid #0000FF" else EmptyString)
                     (head_style d);
     head := map (restyle (elementRule s)) (head d);
     body_style := bodyRule s (body_style d);
     body := map (restyle (elementRule s)) (body d) |}.
Proof.
  unfold styleRules. cbv zeta.
  apply document_eq; cbn [html_style head_style head body_style body];
    autorewrite with page; try apply elementRule_nodes; reflexivity.
Qed.

(** ** Counting and removing elements by id *)

Lemma count_in_cons (id : string) (n : node) (l : list node) :
  count_in id (n :: l) = (count_node id n + count_in id l)%nat.
Proof. reflexivity. Qed.

Lemma count_in_app (id : string) (l l' : list node) :
  count_in id (l ++ l') = (count_in id l + count_in id l')%nat.
Proof.
  unfold count_in. induction l as [|n l IH]; simpl; [reflexivity|].
  rewrite IH. lia.
Qed.

Lemma count_node_element (id tag : string) (attrs st : gmap string string)
  (kids : list node) :
  count_node id (Element tag attrs st kids) =
  ((if has_id id (Element tag attrs st kids) then 1 else 0) + count_in id kids)%nat.
Proof. reflexivity. Qed.

Lemma count_node_has_id (id : string) (n : node) :
  has_id id n = true -> (0 < count_node id n)%nat.
Proof.
  destruct n as [data|tag attrs st kids]; [discriminate|].
  intros H. rewrite count_node_element, H. lia.
Qed.

Lemma count_restyle (f : string -> gmap string string -> gmap string string)
  (id : string) (n : node) :
  count_node id (restyle f n) = count_node id n.
Proof.
  induction n as [data|tag attrs st kids IH] using node_ind'; [reflexivity|].
  cbn [restyle]. rewrite !count_node_element. cbn [has_id]. f_equal.
  unfold count_in. rewrite map_map. f_equal. apply map_ext_Forall, IH.
Qed.

Lemma count_in_restyle (f : string -> gmap string string -> gmap string string)
  (id : string) (l : list node) :
  count_in id (map (restyle f) l) = count_in id l.
Proof.
  unfold count_in. rewrite map_map. f_equal. apply map_ext. intros n.
  apply count_restyle.
Qed.

(** Nothing is found exactly when nothing carries the id. *)
Lemma find_node_count (id : string) (n : node) :
  find_node id n = None <-> count_node id n = 0%nat.
Proof.
  induction n as [data|tag attrs st kids IH] using node_ind'.
  - simpl. tauto.
  - rewrite find_node_element, count_node_element.
    destruct (has_id id (Element tag attrs st kids)).
    + split; [discriminate|lia].
    + simpl. induction IH as [|k kids Hk _ IHkids]; [tauto|].
      cbn [find_first]. rewrite count_in_cons.
      destruct (find_node id k) eqn:Ek.
      * split; [discriminate|]. intros H.
        assert (count_node id k = 0%nat) as H0 by lia.
        apply Hk in H0. discriminate H0.
      * rewrite IHkids. pose proof (proj1 Hk eq_refl). lia.
Qed.

Lemma find_first_count (id : string) (l : list node) :
  find_first id l = None <-> count_in id l = 0%nat.
Proof.
  induction l as [|k l IH]; [simpl; tauto|].
  cbn [find_first]. rewrite count_in_cons.
  destruct (find_node id k) eqn:Ek.
  - split; [discriminate|]. intros H.
    assert (count_node id k = 0%nat) as H0 by lia.
    apply find_node_count in H0. congruence.
  - rewrite IH. apply find_node_count in Ek. lia.
Qed.

Lemma getElementById_count (id : string) (d : document) :
  getElementById id d = None <-> count_id id d = 0%nat.
Proof.
  unfold getElementById, count_id. fold (count_in id (head d)) (count_in id (body d)).
  destruct (find_first id (head d)) eqn:Eh.
  - split; [discriminate|]. intros H.
    assert (count_in id (head d) = 0%nat) as H0 by lia.
    apply find_first_count in H0. congruence.
  - rewrite find_first_count. apply find_first_count in Eh. lia.
Qed.

(** Removal takes at least one carrier of the id away, and happens whenever
    there is one. *)
Lemma remove_first_count (id : string) (l : list node) :
  match remove_first id l with
  | Some l' => (count_in id l' < count_in id l)%nat
  | None => count_in id l = 0%nat
  end.
Proof.
  induction l as [|n l IHl]; [reflexivity|].
  cbn [remove_first]. rewrite count_in_cons.
  destruct (has_id id n) eqn:Hn.
  { apply count_node_has_id in Hn. lia. }
  assert (match remove_below id n with
          | Some n' => (count_node id n' < count_node id n)%nat
          | None => count_node id n = 0%nat
          end) as Hbelow.
  { clear IHl. induction n as [data|tag attrs st kids IH] using node_ind';
      [reflexivity|].
    rewrite remove_below_element, !count_node_element, Hn.
    assert (match remove_first id kids with
            | Some kids' => (count_in id kids' < count_in id kids)%nat
            | None => count_in id kids = 0%nat
            end) as Hkids.
    { clear Hn. induction IH as [|k kids Hk _ IHkids]; [reflexivity|].
      cbn [remove_first]. rewrite count_in_cons.
      destruct (has_id id k) eqn:Ek.
      { apply count_node_has_id in Ek. lia. }
      specialize (Hk eq_refl).
      destruct (remove_below id k) as [k'|].
      - rewrite count_in_cons. lia.
      - destruct (remove_first id kids) as [kids'|]; cbn [option_map].
        + rewrite count_in_cons. lia.
        + lia. }
    destruct (remove_first id kids) as [kids'|]; cbn [option_map].
    - rewrite count_node_element. cbn [has_id] in Hn |- *. rewrite Hn. lia.
    - lia. }
  destruct (remove_below id n) as [n'|].
  - rewrite count_in_cons. lia.
  - destruct (remove_first id l) as [l'|]; cbn [option_map].
    + rewrite count_in_cons. lia.
    + lia.
Qed.

Lemma removeById_count (id : string) (d : document) :
  (0 < count_id id d)%nat -> (count_id id (removeById id d) < count_id id d)%nat.
Proof.
  unfold removeById, count_id.
  fold (count_in id (head d)) (count_in id (body d)).
  pose proof (remove_first_count id (head d)) as Hh.
  pose proof (remove_first_count id (body d)) as Hb.
  destruct (remove_first id (head d)) as [h'|].
  - cbn [head body]. fold (count_in id h') (count_in id (body d)). lia.
  - destruct (remove_first id (body d)) as [b'|].
    + cbn [head body]. fold (count_in id (head d)) (count_in id b'). lia.
    + lia.
Qed.

Lemma count_id_styleRules (s : AccessibilitySettings) (id : string) (d : document) :
  count_id id (styleRules s d) = count_id id d.
Proof.
  rewrite styleRules_fields. unfold count_id. cbn [head body].
  fold (count_in id (map (restyle (elementRule s)) (head d)))
       (count_in id (map (restyle (elementRule s)) (body d))).
  rewrite !count_in_restyle. reflexivity.
Qed.

Lemma count_id_append_guide (d : document) :
  count_id guideId (appendChild guideLine d) = S (count_id guideId d).
Proof.
  unfold count_id, appendChild. cbn [head body].
  fold (count_in guideId (head d)) (count_in guideId (body d ++ [guideLine]))
       (count_in guideId (body d)).
  rewrite count_in_app.
  change (count_in guideId [guideLine]) with 1%nat. lia.
Qed.

(** The number of guide lines after the effect has run, on a page with at
    most one. *)
Lemma count_id_applySettings (s : AccessibilitySettings) (d : document) :
  (count_id guideId d <= 1)%nat ->
  count_id guideId (applySettings s d) = if guideEnabled s then 1%nat else 0%nat.
Proof.
  intros Hd. rewrite applySettings_parts. unfold guideRule.
  pose proof (count_id_styleRules s guideId d) as Hc.
  pose proof (getElementById_count guideId (styleRules s d)) as Hg.
  destruct (guideEnabled s), (getElementById guideId (styleRules s d)) eqn:E.
  - assert (count_id guideId (styleRules s d) <> 0%nat) as H0
      by (intros H0; apply Hg in H0; discriminate H0).
    lia.
  - rewrite count_id_append_guide. pose proof (proj1 Hg eq_refl). lia.
  - assert (count_id guideId (styleRules s d) <> 0%nat) as H0
      by (intros H0; apply Hg in H0; discriminate H0).
    pose proof (removeById_count guideId (styleRules s d)). lia.
  - apply Hg. reflexivity.
Qed.

(** ** Running the effect again *)

Lemma lookup_set_style (p q v : string) (st : gmap string string) :
  set_style p v st !! q =
  if decide (p = q) then (if decide (v = EmptyString) then None else Some v)
  else st !! q.
Proof.
  unfold set_style. destruct (decide (p = q)) as [->|Hpq].
  - destruct (decide (v = EmptyString)).
    + apply lookup_delete_eq.
    + apply lookup_insert_eq.
  - destruct (decide (v = EmptyString)).
    + apply lookup_delete_ne, Hpq.
    + apply lookup_insert_ne, Hpq.
Qed.

Ltac style_eq :=
  apply map_eq; intros ?; rewrite !lookup_set_style;
  repeat (case_decide; try congruence; try reflexivity).

Lemma set_style_twice (p v : string) (st : gmap string string) :
  set_style p v (set_style p v st) = set_style p v st.
Proof. style_eq. Qed.

Lemma htmlRule_twice (s : AccessibilitySettings) (st : gmap string string) :
  htmlRule s (htmlRule s st) = htmlRule s st.
Proof. unfold htmlRule. style_eq. Qed.

Lemma bodyRule_twice (s : AccessibilitySettings) (st : gmap string string) :
  bodyRule s (bodyRule s st) = bodyRule s st.
Proof. unfold bodyRule. style_eq. Qed.

Lemma elementRule_twice (s : AccessibilitySettings) (tag : string)
  (st : gmap string string) :
  elementRule s tag (elementRule s tag st) = elementRule s tag st.
Proof.
  unfold elementRule. destruct (tag_is "a" tag), (tag_is "img" tag); style_eq.
Qed.

Lemma restyle_elementRule_twice (s : AccessibilitySettings) (l : list node) :
  map (restyle (elementRule s)) (map (restyle (elementRule s)) l)
  = map (restyle (elementRule s)) l.
Proof.
  rewrite map_map. apply map_ext. intros n. rewrite restyle_restyle.
  apply restyle_ext. intros tag st. apply elementRule_twice.
Qed.

(** The nine style rules are idempotent. *)
Lemma styleRules_twice (s : AccessibilitySettings) (d : document) :
  styleRules s (styleRules s d) = styleRules s d.
Proof.
  rewrite !styleRules_fields. cbn [html_style head_style head body_style body].
  rewrite htmlRule_twice, bodyRule_twice, set_style_twice, !restyle_elementRule_twice.
  reflexivity.
Qed.

Lemma has_id_restyle (f : string -> gmap string string -> gmap string string)
  (id : string) (n : node) :
  has_id id (restyle f n) = has_id id n.
Proof. destruct n; reflexivity. Qed.

(** Restyling and removing commute. *)
Lemma remove_first_restyle (f : string -> gmap string string -> gmap string string)
  (id : string) (l : list node) :
  remove_first id (map (restyle f) l) = option_map (map (restyle f)) (remove_first id l).
Proof.
  induction l as [|n l IHl]; [reflexivity|].
  cbn [map remove_first]. rewrite has_id_restyle.
  destruct (has_id id n); [reflexivity|].
  assert (remove_below id (restyle f n) = option_map (restyle f) (remove_below id n))
    as Hbelow.
  { clear IHl. induction n as [data|tag attrs st kids IH] using node_ind';
      [reflexivity|].
    cbn [restyle]. rewrite !remove_below_element.
    assert (remove_first id (map (restyle f) kids)
            = option_map (map (restyle f)) (remove_first id kids)) as ->.
    { induction IH as [|k kids Hk _ IHkids]; [reflexivity|].
      cbn [map remove_first]. rewrite has_id_restyle, Hk, IHkids.
      destruct (has_id id k); [reflexivity|].
      destruct (remove_below id k); [reflexivity|].
      destruct (remove_first id kids); reflexivity. }
    destruct (remove_first id kids); reflexivity. }
  rewrite Hbelow, IHl.
  destruct (remove_below id n); [reflexivity|].
  destruct (remove_first id l); reflexivity.
Qed.

Lemma styleRules_removeById (s : AccessibilitySettings) (id : string) (d : document) :
  styleRules s (removeById id d) = removeById id (styleRules s d).
Proof.
  rewrite !styleRules_fields. unfold removeById.
  cbn [html_style head_style head body_style body].
  rewrite !remove_first_restyle.
  destruct (remove_first id (head d)) as [h'|]; cbn [option_map]; [reflexivity|].
  destruct (remove_first id (body d)) as [b'|]; reflexivity.
Qed.

Lemma styleRules_appendChild (s : AccessibilitySettings) (n : node) (d : document) :
  styleRules s (appendChild n d)
  = appendChild (restyle (elementRule s) n) (styleRules s d).
Proof.
  rewrite !styleRules_fields. unfold appendChild.
  cbn [html_style head_style head body_style body].
  rewrite map_app. reflexivity.
Qed.

(** The guide line is a [div]: only the outline rule can touch it. *)
Lemma restyle_guideLine (s : AccessibilitySettings) :
  focusEnabled s = false -> restyle (elementRule s) guideLine = guideLine.
Proof.
  intros Hf. unfold guideLine. cbn [restyle map]. f_equal.
  unfold elementRule. rewrite Hf.
  change (tag_is "a" "div") with false. change (tag_is "img" "div") with false.
  cbv iota. style_eq.
Qed.

(** X2: the effect is idempotent on a page with at most one guide line,
    unless its first run has to create the line while the focus outline is
    on. *)
Theorem same_settings_twice (s : AccessibilitySettings) (d : document) :
  (count_id guideId d <= 1)%nat ->
  (guideEnabled s = true -> count_id guideId d = 0%nat -> focusEnabled s = false) ->
  applySettings s (applySettings s d) = applySettings s d.
Proof.
  intros Hd Hfocus. rewrite !applySettings_parts.
  pose proof (count_id_styleRules s guideId d) as Hc.
  pose proof (getElementById_count guideId (styleRules s d)) as Hg.
  destruct (guideEnabled s) eqn:Eg;
    destruct (getElementById guideId (styleRules s d)) eqn:E.
  - replace (guideRule true (styleRules s d)) with (styleRules s d)
      by (unfold guideRule; rewrite E; reflexivity).
    rewrite styleRules_twice. unfold guideRule. rewrite E. reflexivity.
  - replace (guideRule true (styleRules s d)) with (appendChild guideLine (styleRules s d))
      by (unfold guideRule; rewrite E; reflexivity).
    assert (count_id guideId d = 0%nat) as H0 by (pose proof (proj1 Hg eq_refl); lia).
    rewrite styleRules_appendChild, styleRules_twice,
      (restyle_guideLine s (Hfocus eq_refl H0)).
    unfold guideRule.
    destruct (getElementById guideId (appendChild guideLine (styleRules s d))) eqn:E';
      [reflexivity|].
    apply getElementById_count in E'. rewrite count_id_append_guide in E'. lia.
  - replace (guideRule false (styleRules s d)) with (removeById guideId (styleRules s d))
      by (unfold guideRule; rewrite E; reflexivity).
    rewrite styleRules_removeById, styleRules_twice. unfold guideRule.
    destruct (getElementById guideId (removeById guideId (styleRules s d))) eqn:E';
      [|reflexivity].
    assert (count_id guideId (styleRules s d) <> 0%nat) as H0
      by (intros H0; apply Hg in H0; discriminate H0).
    pose proof (removeById_count guideId (styleRules s d)).
    assert (count_id guideId (removeById guideId (styleRules s d)) = 0%nat) as H1 by lia.
    apply getElementById_count in H1. congruence.
  - replace (guideRule false (styleRules s d)) with (styleRules s d)
      by (unfold guideRule; rewrite E; reflexivity).
    rewrite styleRules_twice. unfold guideRule. rewrite E. reflexivity.
Qed.

Lemma same_settings_twice_witness :
  let s := with_field KguideEnabled true (with_field KhighContrast true defaultSettings) in
  applySettings s (applySettings s blank_page) = applySettings s blank_page.
Proof.
  apply (same_settings_twice
           (with_field KguideEnabled true (with_field KhighContrast true defaultSettings))
           blank_page).
  - vm_compute. lia.
  - reflexivity.
Defined.

(** X1: enabling the reading guide twice in a row leaves exactly one guide
    line, and disabling it leaves none, on a page that had at most one. *)
Theorem guide_line_count (on1 on2 off : AccessibilitySettings) (d : document) :
  (count_id guideId d <= 1)%nat ->
  guideEnabled on1 = true -> guideEnabled on2 = true -> guideEnabled off = false ->
  count_id guideId (applySettings on1 d) = 1%nat /\
  count_id guideId (applySettings on2 (applySettings on1 d)) = 1%nat /\
  count_id guideId (applySettings off (applySettings on2 (applySettings on1 d))) = 0%nat.
Proof.
  intros Hd H1 H2 H3.
  assert (count_id guideId (applySettings on1 d) = 1%nat) as C1
    by (rewrite count_id_applySettings, H1 by exact Hd; reflexivity).
  assert (count_id guideId (applySettings on2 (applySettings on1 d)) = 1%nat) as C2
    by (rewrite count_id_applySettings, H2 by lia; reflexivity).
  split; [exact C1|]. split; [exact C2|].
  rewrite count_id_applySettings, H3 by lia. reflexivity.
Qed.

Lemma guide_line_count_witness :
  let on := with_field KguideEnabled true defaultSettings in
  count_id guideId (applySettings on blank_page) = 1%nat /\
  count_id guideId (applySettings on (applySettings on blank_page)) = 1%nat /\
  count_id guideId
    (applySettings defaultSettings (applySettings on (applySettings on blank_page)))
  = 0%nat.
Proof.
  apply (guide_line_count (with_field KguideEnabled true defaultSettings)
           (with_field KguideEnabled true defaultSettings) defaultSettings blank_page).
  - vm_compute. lia.
  - reflexivity.
  - reflexivity.
  - reflexivity.
Defined.

Lemma commit_synced (s : AccessibilitySettings) (c : component) :
  load (storage (commit (to_js s) c)) = Ok (settings (commit (to_js s) c)).
Proof. apply load_saved, getItem_save. Qed.

Lemma dispatch_synced (a : action) (c : component) :
  holds_record c ->
  exists c', dispatch a c = Ok c' /\ holds_record c' /\
             load (storage c') = Ok (settings c').
Proof.
  intros [s Hs]. unfold dispatch. rewrite Hs.
  destruct (update_record a s) as [s' ->]. cbn [bind].
  eexists. split; [reflexivity|]. split; [exists s'; reflexivity|apply commit_synced].
Qed.

Lemma mount_synced (ls : gmap jsstring jsstring) :
  well_kept ls ->
  exists c, mount ls = Ok c /\ holds_record c /\ load (storage c) = Ok (settings c).
Proof.
  unfold mount, loadEffect. intros [H|[H|[s H]]]; rewrite H.
  - eexists. split; [reflexivity|].
    split; [exists defaultSettings; reflexivity|apply commit_synced].
  - eexists. split; [reflexivity|].
    split; [exists defaultSettings; reflexivity|apply commit_synced].
  - rewrite stringify_to_js_truthy, parse_stringify_to_js.
    eexists. split; [reflexivity|]. split; [exists s; reflexivity|apply commit_synced].
Qed.

(** X4: what the store holds can always be loaded back: after mounting on a
    well-kept store and any sequence of actions, [load] of the store gives
    the in-memory settings. *)
Theorem store_follows_settings (ls : gmap jsstring jsstring) (acts : list action) :
  well_kept ls ->
  exists c c', mount ls = Ok c /\ run acts c = Ok c' /\
               load (storage c') = Ok (settings c').
Proof.
  intros H. destruct (mount_synced ls H) as (c & Hm & Hc & Hload).
  exists c. rewrite Hm. clear Hm H.
  revert c Hc Hload. induction acts as [|a acts IH]; intros c Hc Hload.
  - exists c. repeat split. exact Hload.
  - destruct (dispatch_synced a c Hc) as (c1 & Hd & Hc1 & Hl1).
    destruct (IH c1 Hc1 Hl1) as (c' & _ & Hr & Hl).
    exists c'. split; [reflexivity|]. split; [|exact Hl].
    cbn [run]. rewrite Hd. exact Hr.
Qed.

Lemma store_follows_settings_witness :
  exists c c', mount ∅ = Ok c /\
               run [Change KguideEnabled true; TogglePageStructure] c = Ok c' /\
               load (storage c') = Ok (settings c').
Proof.
  apply (store_follows_settings ∅). left. reflexivity.
Defined.

(** ** Images, one by one *)

Lemma select_node_restyle (f : string -> gmap string string -> gmap string string)
  (sel : string -> bool) (n : node) :
  select_node sel (restyle f n) = map (restyle f) (select_node sel n).
Proof.
  induction n as [data|tag attrs st kids IH] using node_ind'; [reflexivity|].
  cbn [restyle select_node]. rewrite map_app. f_equal.
  - destruct (sel tag); reflexivity.
  - induction IH as [|k kids Hk _ IHkids]; [reflexivity|].
    cbn [map flat_map]. rewrite map_app, Hk, IHkids. reflexivity.
Qed.

Lemma select_in_restyle (f : string -> gmap string string -> gmap string string)
  (sel : string -> bool) (l : list node) :
  flat_map (select_node sel) (map (restyle f) l)
  = map (restyle f) (flat_map (select_node sel) l).
Proof.
  induction l as [|n l IH]; [reflexivity|].
  cbn [map flat_map]. rewrite map_app, select_node_restyle, IH. reflexivity.
Qed.

(** What a selector returns is an element it matches. *)
Lemma select_node_matches (sel : string -> bool) (n : node) :
  Forall (fun e => sel (tagNameLower e) = true /\ is_element e = true)
    (select_node sel n).
Proof.
  induction n as [data|tag attrs st kids IH] using node_ind'; [constructor|].
  cbn [select_node]. apply Forall_app. split.
  - destruct (sel tag) eqn:E; constructor; [|constructor].
    split; [exact E|reflexivity].
  - apply Forall_flat_map, IH.
Qed.

Lemma display_after_elementRule (s : AccessibilitySettings) (e : node) :
  tag_is "img" (tagNameLower e) = true -> is_element e = true ->
  style_of (restyle (elementRule s) e) !! "display"
  = Some (if imagesVisible s then "block" else "none").
Proof.
  destruct e as [data|tag attrs st kids]; cbn [tagNameLower restyle style_of].
  - discriminate.
  - intros Htag _. unfold elementRule. rewrite Htag.
    apply lookup_set_style_eq. destruct (imagesVisible s); discriminate.
Qed.

Lemma image_displays_styleRules (s : AccessibilitySettings) (d : document) :
  image_displays (styleRules s d)
  = map (fun _ => Some (if imagesVisible s then "block" else "none")) (image_displays d).
Proof.
  unfold image_displays, querySelectorAll. rewrite styleRules_fields.
  cbn [head body]. rewrite !select_in_restyle, <- map_app, !map_map.
  apply map_ext_Forall.
  assert (Forall (fun e => tag_is "img" (tagNameLower e) = true
                           /\ is_element e = true)
            (flat_map (select_node (tag_is "img")) (head d)
             ++ flat_map (select_node (tag_is "img")) (body d))) as H.
  { apply Forall_app. split; apply Forall_flat_map, Forall_forall;
      intros n _; apply select_node_matches. }
  eapply Forall_impl; [exact H|]. intros e [H1 H2].
  apply display_after_elementRule; assumption.
Qed.

Lemma image_displays_applySettings (s : AccessibilitySettings) (d : document) :
  guideEnabled s = true \/ count_id guideId d = 0%nat ->
  image_displays (applySettings s d)
  = map (fun _ => Some (if imagesVisible s then "block" else "none")) (image_displays d).
Proof.
  intros H. rewrite applySettings_parts, <- image_displays_styleRules.
  unfold guideRule.
  destruct (guideEnabled s), (getElementById guideId (styleRules s d)) eqn:E;
    try reflexivity.
  - unfold image_displays. rewrite querySelectorAll_img_append_guide. reflexivity.
  - destruct H as [H|H]; [discriminate|].
    rewrite <- (count_id_styleRules s) in H.
    apply getElementById_count in H. congruence.
Qed.

(** X3: image by image, on a page without a guide line, hiding the images gives
    every image the inline display ["none"], and showing them again gives
    every image ["block"], in the same number and order, whatever display
    each had at first. *)
Theorem images_block_one_by_one (shown hidden : AccessibilitySettings) (d : document) :
  count_id guideId d = 0%nat ->
  guideEnabled shown = guideEnabled hidden ->
  imagesVisible hidden = false -> imagesVisible shown = true ->
  image_displays (applySettings hidden d)
  = map (fun _ => Some "none") (image_displays d) /\
  image_displays (applySettings shown (applySettings hidden d))
  = map (fun _ => Some "block") (image_displays d).
Proof.
  intros Hd Hg Hh Hs.
  assert (image_displays (applySettings hidden d)
          = map (fun _ => Some "none") (image_displays d)) as H1.
  { rewrite image_displays_applySettings by (right; exact Hd). rewrite Hh. reflexivity. }
  split; [exact H1|].
  rewrite image_displays_applySettings.
  - rewrite Hs, H1, map_map. reflexivity.
  - destruct (guideEnabled hidden) eqn:E.
    + left. rewrite Hg. reflexivity.
    + right. rewrite count_id_applySettings by lia. rewrite E. reflexivity.
Qed.

Lemma images_block_one_by_one_witness :
  let d := Document ∅ ∅ [] ∅
             [Element "img" ∅ {[ "display" := "inline" ]} []; Element "img" ∅ ∅ []] in
  let hidden := with_field KimagesVisible false defaultSettings in
  image_displays (applySettings hidden d)
  = map (fun _ => Some "none") (image_displays d) /\
  image_displays (applySettings defaultSettings (applySettings hidden d))
  = map (fun _ => Some "block") (image_displays d).
Proof.
  apply (images_block_one_by_one defaultSettings
           (with_field KimagesVisible false defaultSettings)
           (Document ∅ ∅ [] ∅
              [Element "img" ∅ {[ "display" := "inline" ]} []; Element "img" ∅ ∅ []]));
    reflexivity.
Defined.

(** ** The guide line and the focus outline, on any page *)

Lemma find_first_app_last (id : string) (l : list node) (g : node) :
  count_in id l = 0%nat -> has_id id g = true -> find_first id (l ++ [g]) = Some g.
Proof.
  intros Hl Hg. induction l as [|n l IH]; cbn [app find_first].
  - destruct g as [data|tag attrs st kids]; [discriminate|].
    rewrite find_node_element, Hg. reflexivity.
  - rewrite count_in_cons in Hl.
    assert (find_node id n = None) as -> by (apply find_node_count; lia).
    apply IH. lia.
Qed.

Lemma getElementById_appended (id : string) (g : node) (d : document) :
  count_id id d = 0%nat -> has_id id g = true ->
  getElementById id (appendChild g d) = Some g.
Proof.
  unfold count_id, getElementById, appendChild. cbn [head body].
  fold (count_in id (head d)) (count_in id (body d)). intros Hd Hg.
  assert (find_first id (head d) = None) as -> by (apply find_first_count; lia).
  apply find_first_app_last; [lia|exact Hg].
Qed.

(** X5: on every page without a guide line, and for every record with the
    focus outline and the reading guide on, the first application leaves
    the new guide line without an outline and the second gives it one: the
    second application changes the page. *)
Theorem second_apply_changes_page (s : AccessibilitySettings) (d : document) :
  count_id guideId d = 0%nat -> focusEnabled s = true -> guideEnabled s = true ->
  guide_outline (applySettings s d) = None /\
  guide_outline (applySettings s (applySettings s d)) = Some "2px solid #0000FF" /\
  applySettings s (applySettings s d) <> applySettings s d.
Proof.
  intros Hd Hf Hg.
  assert (count_id guideId (styleRules s d) = 0%nat) as H9
    by (rewrite count_id_styleRules; exact Hd).
  assert (applySettings s d = appendChild guideLine (styleRules s d)) as H1.
  { rewrite applySettings_parts, Hg. unfold guideRule.
    apply getElementById_count in H9. rewrite H9. reflexivity. }
  assert (applySettings s (applySettings s d)
          = appendChild (restyle (elementRule s) guideLine) (styleRules s d)) as H2.
  { rewrite H1 at 1. rewrite applySettings_parts, Hg.
    rewrite styleRules_appendChild, styleRules_twice. unfold guideRule.
    rewrite getElementById_appended; [reflexivity|exact H9|reflexivity]. }
  assert (guide_outline (applySettings s d) = None) as O1.
  { rewrite H1. unfold guide_outline.
    rewrite getElementById_appended; [reflexivity|exact H9|reflexivity]. }
  assert (guide_outline (applySettings s (applySettings s d))
          = Some "2px solid #0000FF") as O2.
  { rewrite H2. unfold guide_outline.
    rewrite getElementById_appended; [|exact H9|reflexivity].
    unfold guideLine. cbn [restyle style_of]. unfold elementRule. rewrite Hf.
    change (tag_is "a" "div") with false. change (tag_is "img" "div") with false.
    cbv iota. apply lookup_set_style_eq. discriminate. }
  split; [exact O1|]. split; [exact O2|].
  intros Heq. rewrite Heq, O1 in O2. discriminate O2.
Qed.

Lemma second_apply_changes_page_witness :
  let d := Document ∅ ∅ [] ∅ [Element "h1" ∅ ∅ [Text "Menu"]] in
  guide_outline (applySettings focus_and_guide d) = None /\
  guide_outline (applySettings focus_and_guide (applySettings focus_and_guide d))
  = Some "2px solid #0000FF" /\
  applySettings focus_and_guide (applySettings focus_and_guide d)
  <> applySettings focus_and_guide d.
Proof.
  apply (second_apply_changes_page focus_and_guide
           (Document ∅ ∅ [] ∅ [Element "h1" ∅ ∅ [Text "Menu"]])); reflexivity.
Defined.

(** ** The widget shell *)

Lemma handlers_widgetView (w : widget) (d : document) (s : AccessibilitySettings) :
  settings (core w) = to_js s -> isRemoved w = false ->
  handlers (widgetView w d) = offered w s.
Proof.
  destruct w as [o hd r c]. cbn [core isRemoved]. intros Hs ->.
  unfold widgetView, offered. cbn [core isHidden isOpen isRemoved]. rewrite Hs.
  destruct s as [a1 a2 a3 a4 a5 a6 a7 a8 a9 a10 a11 a12].
  destruct hd, o, a11; reflexivity.
Qed.

Lemma render_record (w : widget) (d : document) (s : AccessibilitySettings) :
  settings (core w) = to_js s -> isRemoved w = false ->
  render w d = Ok (widgetView w d).
Proof. intros Hs Hr. unfold render. rewrite Hr, Hs. reflexivity. Qed.

Lemma fire_record (h : handler) (w : widget) (s : AccessibilitySettings) :
  settings (core w) = to_js s ->
  exists w', fire h w = Ok w' /\
    settings (core w') = to_js (settingsAfter h s) /\
    isOpen w' = (match h with HSetIsOpen v => v | _ => isOpen w end) /\
    isHidden w' = (match h with HSetIsHidden v => v | _ => isHidden w end) /\
    isRemoved w' = (match h with HSetIsRemoved v => v | _ => isRemoved w end).
Proof.
  intros Hs. destruct h as [v|v|v|k v| |]; cbn [fire settingsAfter].
  - eexists. split; [reflexivity|]. cbn. auto.
  - eexists. split; [reflexivity|]. cbn. auto.
  - eexists. split; [reflexivity|]. cbn. auto.
  - unfold dispatch. rewrite Hs. cbn [update bind].
    eexists. split; [reflexivity|]. cbn [core with_core settings commit].
    rewrite handleSettingChange_typed. cbn. auto.
  - unfold dispatch. rewrite Hs. cbn [update]. rewrite togglePageStructure_typed.
    cbn [bind]. eexists. split; [reflexivity|]. cbn. auto.
  - unfold dispatch. cbn [update bind resetSettings].
    eexists. split; [reflexivity|]. cbn. auto.
Qed.

Lemma click_record (d : document) (h : handler) (w w' : widget)
  (s : AccessibilitySettings) :
  settings (core w) = to_js s -> click d h w w' ->
  In h (offered w s) /\ settings (core w') = to_js (settingsAfter h s).
Proof.
  intros Hs [(v & Hv & Hin) Hfire]. split.
  - unfold render in Hv. destruct (isRemoved w) eqn:Hr.
    + inversion Hv; subst. destruct Hin.
    + rewrite <- (handlers_widgetView w d s Hs Hr).
      rewrite Hs in Hv. destruct s; inversion Hv; subst. exact Hin.
  - destruct (fire_record h w s Hs) as (w1 & Hf & Hset & _).
    rewrite Hf in Hfire. inversion Hfire; subst. exact Hset.
Qed.

Lemma click_offered (d : document) (h : handler) (w : widget)
  (s : AccessibilitySettings) :
  settings (core w) = to_js s -> In h (offered w s) ->
  exists w', click d h w w' /\
    settings (core w') = to_js (settingsAfter h s) /\
    isOpen w' = (match h with HSetIsOpen v => v | _ => isOpen w end) /\
    isHidden w' = (match h with HSetIsHidden v => v | _ => isHidden w end) /\
    isRemoved w' = (match h with HSetIsRemoved v => v | _ => isRemoved w end).
Proof.
  intros Hs Hin. destruct (fire_record h w s Hs) as (w' & Hf & Hrest).
  exists w'. split; [|exact Hrest]. split; [|exact Hf].
  destruct (isRemoved w) eqn:Hr.
  - unfold offered in Hin. rewrite Hr in Hin. destruct Hin.
  - exists (widgetView w d). split; [apply (render_record w d s Hs Hr)|].
    rewrite (handlers_widgetView w d s Hs Hr). exact Hin.
Qed.

(** X6: a removed widget renders [null] and offers no control, whatever its
    settings: no click is possible any more, so nothing about it changes
    until the page is loaded again. *)
Theorem removed_is_final (d : document) (w w' : widget) (hs : list handler) :
  isRemoved w = true -> session d w hs w' ->
  render w d = Ok WNull /\ hs = [] /\ w' = w.
Proof.
  intros Hr Hsession.
  assert (render w d = Ok WNull) as Hrender by (unfold render; rewrite Hr; reflexivity).
  split; [exact Hrender|].
  destruct Hsession as [w|w w1 w2 h hs [(v & Hv & Hin) _] _].
  - split; reflexivity.
  - rewrite Hrender in Hv. inversion Hv; subst. destruct Hin.
Qed.

Lemma removed_is_final_witness :
  let w := Widget true false true (Component JNull ∅ []) in
  render w blank_page = Ok WNull /\ @nil handler = [] /\ w = w.
Proof.
  apply (removed_is_final blank_page (Widget true false true (Component JNull ∅ []))).
  - reflexivity.
  - apply session_end.
Defined.

(** X7: hiding and showing is a round trip.  From an open panel on record
    settings, Hide can be clicked; while the widget is hidden the only
    controls are Show Widget and the Close of the page-structure dialog;
    Show Widget brings back the very state Hide was clicked in, panel open,
    and neither click touches the settings or the store. *)
Theorem hide_show_round_trip (d : document) (w : widget) (s : AccessibilitySettings) :
  settings (core w) = to_js s ->
  isRemoved w = false -> isHidden w = false -> isOpen w = true ->
  exists hidden,
    click d (HSetIsHidden true) w hidden /\
    core hidden = core w /\
    (forall h w2, click d h hidden w2 -> h = HSetIsHidden false \/ h = HTogglePageStructure) /\
    click d (HSetIsHidden false) hidden w.
Proof.
  intros Hs Hr Hh Ho. destruct w as [o hd r c]. cbn in Hs, Hr, Hh, Ho. subst.
  exists (Widget true true false c).
  assert (click d (HSetIsHidden true) (Widget true false false c) (Widget true true false c))
    as C1.
  { split; [|reflexivity]. exists (widgetView (Widget true false false c) d).
    split; [apply (render_record (Widget true false false c) d s Hs eq_refl)|].
    rewrite (handlers_widgetView (Widget true false false c) d s Hs eq_refl).
    cbn. auto. }
  split; [exact C1|]. split; [reflexivity|]. split.
  - intros h w2 Hc.
    apply (click_record d h (Widget true true false c) w2 s Hs) in Hc as [Hin _].
    unfold offered in Hin. cbn [isRemoved isHidden] in Hin.
    destruct (showPageStructure s); cbn in Hin; intuition.
  - split; [|reflexivity]. exists (widgetView (Widget true true false c) d).
    split; [apply (render_record (Widget true true false c) d s Hs eq_refl)|].
    rewrite (handlers_widgetView (Widget true true false c) d s Hs eq_refl).
    cbn. auto.
Qed.

Lemma hide_show_round_trip_witness :
  let w := Widget true false false (Component (to_js defaultSettings) ∅ []) in
  exists hidden,
    click blank_page (HSetIsHidden true) w hidden /\
    core hidden = core w /\
    (forall h w2, click blank_page h hidden w2 ->
                  h = HSetIsHidden false \/ h = HTogglePageStructure) /\
    click blank_page (HSetIsHidden false) hidden w.
Proof.
  apply (hide_show_round_trip blank_page
           (Widget true false false (Component (to_js defaultSettings) ∅ []))
           defaultSettings); reflexivity.
Defined.

Lemma offered_keeps_spacing_and_font (h : handler) (w : widget)
  (s : AccessibilitySettings) :
  In h (offered w s) ->
  (spacing (settingsAfter h s) = spacing s
   \/ h = HResetSettings /\ spacing (settingsAfter h s) = SpacingNormal) /\
  (font (settingsAfter h s) = font s \/ font (settingsAfter h s) = Serif
   \/ h = HResetSettings /\ font (settingsAfter h s) = SansSerif).
Proof.
  unfold offered, gridHandlers.
  destruct (isRemoved w), (isHidden w), (isOpen w), (showPageStructure s) eqn:E;
    cbn [app In]; intros Hin;
    repeat (destruct Hin as [<-|Hin]; [cbn; auto|]); destruct Hin.
Qed.

(** X8: the panel has no control for [spacing] and none that sets the font
    back to sans-serif.  After any session of clicks on record settings, the
    settings are a record whose spacing is the one it started with, or
    normal if Reset was clicked; and whose font is the one it started with,
    or serif, or sans-serif if Reset was clicked. *)
Theorem panel_keeps_spacing (d : document) (w w' : widget) (hs : list handler)
  (s : AccessibilitySettings) :
  settings (core w) = to_js s -> session d w hs w' ->
  exists s',
    settings (core w') = to_js s' /\
    (spacing s' = spacing s \/ In HResetSettings hs /\ spacing s' = SpacingNormal) /\
    (font s' = font s \/ font s' = Serif
     \/ In HResetSettings hs /\ font s' = SansSerif).
Proof.
  intros Hs Hsession. revert s Hs.
  induction Hsession as [w|w w1 w2 h hs Hclick _ IH]; intros s Hs.
  - exists s. auto.
  - destruct (click_record d h w w1 s Hs Hclick) as [Hin Hs1].
    destruct (offered_keeps_spacing_and_font h w s Hin) as [Hsp Hf].
    destruct (IH _ Hs1) as (s' & Hs' & Hsp' & Hf').
    exists s'. split; [exact Hs'|]. cbn [In]. split.
    + destruct Hsp' as [->|[Hr ->]]; [|auto].
      destruct Hsp as [->|[-> ->]]; auto.
    + destruct Hf' as [->|[->|[Hr ->]]]; [|auto|auto].
      destruct Hf as [->|[->|[-> ->]]]; auto.
Qed.

Lemma panel_keeps_spacing_witness :
  exists s',
    to_js (with_field Kfont Serif (with_field Kspacing SpacingWide defaultSettings))
    = to_js s' /\
    (spacing s' = SpacingWide \/ In HResetSettings [HSettingChange Kfont Serif]
                                /\ spacing s' = SpacingNormal) /\
    (font s' = SansSerif \/ font s' = Serif
     \/ In HResetSettings [HSettingChange Kfont Serif] /\ font s' = SansSerif).
Proof.
  apply (panel_keeps_spacing blank_page
           (Widget true false false
              (Component (to_js (with_field Kspacing SpacingWide defaultSettings)) ∅ []))
           (Widget true false false
              (commit (to_js (with_field Kfont Serif
                                (with_field Kspacing SpacingWide defaultSettings)))
                 (Component (to_js (with_field Kspacing SpacingWide defaultSettings)) ∅ [])))
           [HSettingChange Kfont Serif]
           (with_field Kspacing SpacingWide defaultSettings)).
  - reflexivity.
  - eapply session_click; [|apply session_end].
    split; [|reflexivity]. eexists. split; [reflexivity|].
    do 12 right. left. reflexivity.
Defined.

(** A handler of the shell leaves settings and store alone; a handler of
    the settings saves once. *)
Lemma fire_saves (h : handler) (w w' : widget) :
  fire h w = Ok w' ->
  match h with
  | HSetIsOpen _ | HSetIsHidden _ | HSetIsRemoved _ => core w' = core w
  | _ => storage (core w') = save (settings (core w')) (storage (core w)) /\
         writes (core w') = (storageKey, JSON_stringify (settings (core w')))
                            :: writes (core w)
  end.
Proof.
  destruct h as [v|v|v|k v| |]; cbn [fire]; unfold dispatch;
    try (intros H; inversion H; subst; reflexivity);
    destruct (update _ (settings (core w))) as [next|e]; cbn [bind];
    intros H; inversion H; subst; cbn; auto.
Qed.

Lemma toggleHandler_offered (t : Toggle) (w : widget) (s : AccessibilitySettings) :
  isRemoved w = false -> isHidden w = false -> isOpen w = true ->
  In (toggleHandler t s) (offered w s).
Proof.
  intros Hr Hh Ho. unfold offered. rewrite Hr, Hh, Ho.
  apply in_or_app. left. right. apply in_or_app. right.
  destruct t; cbn; auto 20.
Qed.

Lemma toggled_twice (t : Toggle) (s : AccessibilitySettings) :
  toggled t (toggled t s) = s /\ toggled t s <> s.
Proof.
  destruct s as [a1 a2 a3 a4 a5 a6 a7 a8 a9 a10 a11 a12].
  destruct t; cbn; (split; [rewrite negb_involutive; reflexivity|]);
    intros H; inversion H as [Hb]; revert Hb; apply no_fixpoint_negb.
Qed.

(** X9: each of the nine on/off controls is a switch.  In an open panel on
    record settings its button can be clicked, which changes the settings;
    the button the next render offers for the same control can be clicked
    too, and brings back exactly the settings there were, saved again under
    the key: two clicks, two writes, the shell unchanged. *)
Theorem toggle_twice (d : document) (w : widget) (s : AccessibilitySettings)
  (t : Toggle) :
  settings (core w) = to_js s ->
  isRemoved w = false -> isHidden w = false -> isOpen w = true ->
  exists w1 w2,
    click d (toggleHandler t s) w w1 /\
    settings (core w1) = to_js (toggled t s) /\ toggled t s <> s /\
    click d (toggleHandler t (toggled t s)) w1 w2 /\
    settings (core w2) = to_js s /\
    getItem storageKey (storage (core w2)) = Some (JSON_stringify (to_js s)) /\
    length (writes (core w2)) = (2 + length (writes (core w)))%nat /\
    isOpen w2 = true /\ isHidden w2 = false /\ isRemoved w2 = false.
Proof.
  intros Hs Hr Hh Ho.
  destruct (click_offered d (toggleHandler t s) w s Hs
              (toggleHandler_offered t w s Hr Hh Ho))
    as (w1 & C1 & Hs1 & Ho1 & Hh1 & Hr1).
  assert (isOpen w1 = true /\ isHidden w1 = false /\ isRemoved w1 = false)
    as (Ho1' & Hh1' & Hr1')
    by (rewrite Ho1, Hh1, Hr1; destruct t; auto).
  fold (toggled t s) in Hs1.
  destruct (click_offered d (toggleHandler t (toggled t s)) w1 (toggled t s) Hs1
              (toggleHandler_offered t w1 _ Hr1' Hh1' Ho1'))
    as (w2 & C2 & Hs2 & Ho2 & Hh2 & Hr2).
  fold (toggled t (toggled t s)) in Hs2.
  rewrite (proj1 (toggled_twice t s)) in Hs2.
  exists w1, w2. split; [exact C1|]. split; [exact Hs1|].
  split; [apply toggled_twice|]. split; [exact C2|]. split; [exact Hs2|].
  assert (storage (core w2) = save (settings (core w2)) (storage (core w1))
          /\ writes (core w2) = (storageKey, JSON_stringify (settings (core w2)))
                                :: writes (core w1)
          /\ writes (core w1) = (storageKey, JSON_stringify (settings (core w1)))
                                :: writes (core w)) as (Hst & Hw2 & Hw1).
  { destruct C1 as [_ F1], C2 as [_ F2].
    apply fire_saves in F1, F2. destruct t; cbn [toggleHandler] in F1, F2; tauto. }
  split; [rewrite Hst, Hs2; apply getItem_save|].
  split; [rewrite Hw2, Hw1; reflexivity|].
  rewrite Ho2, Hh2, Hr2. destruct t; auto.
Qed.

Lemma toggle_twice_witness :
  let w := Widget true false false (Component (to_js defaultSettings) ∅ []) in
  exists w1 w2,
    click blank_page (toggleHandler TGuide defaultSettings) w w1 /\
    settings (core w1) = to_js (toggled TGuide defaultSettings) /\
    toggled TGuide defaultSettings <> defaultSettings /\
    click blank_page (toggleHandler TGuide (toggled TGuide defaultSettings)) w1 w2 /\
    settings (core w2) = to_js defaultSettings /\
    getItem storageKey (storage (core w2)) = Some (JSON_stringify (to_js defaultSettings)) /\
    length (writes (core w2)) = (2 + length (writes (core w)))%nat /\
    isOpen w2 = true /\ isHidden w2 = false /\ isRemoved w2 = false.
Proof.
  apply (toggle_twice blank_page
           (Widget true false false (Component (to_js defaultSettings) ∅ []))
           defaultSettings TGuide); reflexivity.
Defined.

Lemma shows_structure_widgetView (w : widget) (d : document)
  (s : AccessibilitySettings) :
  settings (core w) = to_js s ->
  shows_structure (widgetView w d) = showPageStructure s.
Proof.
  destruct w as [o hd r c]. cbn [core]. intros Hs.
  unfold widgetView. cbn [core isHidden isOpen]. rewrite Hs.
  destruct s as [a1 a2 a3 a4 a5 a6 a7 a8 a9 a10 a11 a12].
  destruct hd, o, a11; reflexivity.
Qed.

(** X10: what a reload keeps.  The page-structure dialog is rendered exactly
    when [showPageStructure] holds, whether the panel is open, closed or
    hidden; and since that flag is part of the saved settings while the
    three flags of the shell are not, mounting again on the store gives a
    widget that is neither removed nor hidden, with its panel closed, the
    same settings, and the dialog open if it was. *)
Theorem reload_keeps_dialog_not_shell (d : document) (w : widget)
  (s : AccessibilitySettings) :
  settings (core w) = to_js s ->
  getItem storageKey (storage (core w)) = Some (JSON_stringify (to_js s)) ->
  (isRemoved w = false ->
   exists v, render w d = Ok v /\ shows_structure v = showPageStructure s) /\
  exists w' v',
    mountWidget (storage (core w)) = Ok w' /\
    isOpen w' = false /\ isHidden w' = false /\ isRemoved w' = false /\
    settings (core w') = to_js s /\
    render w' d = Ok v' /\ shows_structure v' = showPageStructure s.
Proof.
  intros Hs Hstore. split.
  - intros Hr. exists (widgetView w d).
    split; [apply (render_record w d s Hs Hr)|apply shows_structure_widgetView, Hs].
  - unfold mountWidget, mount, loadEffect.
    rewrite Hstore, stringify_to_js_truthy, parse_stringify_to_js. cbn [bind].
    set (w' := Widget false false false
                 (commit (to_js s)
                    (commit (to_js defaultSettings)
                       (Component (to_js defaultSettings) (storage (core w)) [])))).
    exists w', (widgetView w' d). do 5 (split; [reflexivity|]).
    split; [exact (render_record w' d s eq_refl eq_refl)|].
    exact (shows_structure_widgetView w' d s eq_refl).
Qed.

Lemma reload_keeps_dialog_not_shell_witness :
  let s := with_field KshowPageStructure true defaultSettings in
  let w := Widget true true true (commit (to_js s) (Component (to_js defaultSettings) ∅ [])) in
  (isRemoved w = false ->
   exists v, render w blank_page = Ok v /\ shows_structure v = showPageStructure s) /\
  exists w' v',
    mountWidget (storage (core w)) = Ok w' /\
    isOpen w' = false /\ isHidden w' = false /\ isRemoved w' = false /\
    settings (core w') = to_js s /\
    render w' blank_page = Ok v' /\ shows_structure v' = showPageStructure s.
Proof.
  apply (reload_keeps_dialog_not_shell blank_page
           (Widget true true true
              (commit (to_js (with_field KshowPageStructure true defaultSettings))
                 (Component (to_js defaultSettings) ∅ [])))
           (with_field KshowPageStructure true defaultSettings)).
  - reflexivity.
  - apply getItem_save.
Defined.

(** ** The promotional dialog *)

Lemma find_node_has_id (id : string) (n e : node) :
  find_node id n = Some e -> has_id id e = true.
Proof.
  revert e. induction n as [data|tag attrs st kids IH] using node_ind'; intros e.
  - discriminate.
  - rewrite find_node_element.
    destruct (has_id id (Element tag attrs st kids)) eqn:E.
    + intros H. inversion H; subst. exact E.
    + clear E. induction IH as [|k kids Hk _ IHkids]; [discriminate|].
      cbn [find_first]. destruct (find_node id k) as [e'|] eqn:Ek.
      * intros H. inversion H; subst. apply Hk. reflexivity.
      * exact IHkids.
Qed.

Lemma find_first_has_id (id : string) (l : list node) (e : node) :
  find_first id l = Some e -> has_id id e = true.
Proof.
  induction l as [|k l IH]; [discriminate|].
  cbn [find_first]. destruct (find_node id k) as [e'|] eqn:Ek.
  - intros H. inversion H; subst. apply (find_node_has_id id k e Ek).
  - exact IH.
Qed.

Lemma getElementById_has_id (id : string) (d : document) (e : node) :
  getElementById id d = Some e -> has_id id e = true.
Proof.
  unfold getElementById. destruct (find_first id (head d)) as [e'|] eqn:Eh.
  - intros H. inversion H; subst. apply (find_first_has_id id _ e Eh).
  - apply find_first_has_id.
Qed.

(** X11: the effect of [OrderModal] does exactly one of two things.  When
    some element of the page carries the id [__next] it registers one that
    does as the app element and warns of nothing; when none does it warns
    once, with the message of the source, and registers nothing.  It never
    opens or closes the dialog. *)
Theorem order_modal_app_element (d : document) (m : orderModal) :
  modalIsOpen (orderModalEffect true d m) = modalIsOpen m /\
  alerted (orderModalEffect true d m) = alerted m /\
  ((0 < count_id "__next" d)%nat ->
   warned (orderModalEffect true d m) = warned m /\
   exists e, appElement (orderModalEffect true d m) = Some e /\
             has_id "__next" e = true) /\
  (count_id "__next" d = 0%nat ->
   appElement (orderModalEffect true d m) = appElement m /\
   warned (orderModalEffect true d m)
   = "App element with id '__next' not found." :: warned m).
Proof.
  unfold orderModalEffect.
  pose proof (getElementById_count "__next" d) as Hc.
  destruct (getElementById "__next" d) as [e|] eqn:E; cbn.
  - split; [reflexivity|]. split; [reflexivity|]. split.
    + intros _. split; [reflexivity|]. exists e. split; [reflexivity|].
      apply (getElementById_has_id "__next" d e E).
    + intros H0. apply Hc in H0. discriminate H0.
  - split; [reflexivity|]. split; [reflexivity|]. split.
    + intros Hpos. pose proof (proj1 Hc eq_refl). lia.
    + intros _. split; reflexivity.
Qed.

Lemma order_modal_app_element_witness :
  let d := Document ∅ ∅ [] ∅ [Element "div" {[ "id" := "__next" ]} ∅ []] in
  warned (orderModalEffect true d orderModalMounted) = [] /\
  exists e, appElement (orderModalEffect true d orderModalMounted) = Some e /\
            has_id "__next" e = true.
Proof.
  apply (proj1 (proj2 (proj2
    (order_modal_app_element
       (Document ∅ ∅ [] ∅ [Element "div" {[ "id" := "__next" ]} ∅ []])
       orderModalMounted)))).
  vm_compute. lia.
Defined.

(** X12: the order buttons never close the dialog and nothing reopens it.
    After any sequence of events the dialog is open exactly when it was open
    before and no close event occurred; the alerts shown are those of the
    order clicks, in order; the registered app element and the warnings are
    untouched. *)
Theorem order_modal_closes_for_good (events : list modalEvent) (m : orderModal) :
  modalIsOpen (fold_left modalHandle events m)
  = modalIsOpen m && forallb (fun e => negb (closes e)) events /\
  alerted (fold_left modalHandle events m)
  = (rev (flat_map alertOf events) ++ alerted m)%list /\
  appElement (fold_left modalHandle events m) = appElement m /\
  warned (fold_left modalHandle events m) = warned m.
Proof.
  revert m. induction events as [|e events IH]; intros m.
  - cbn. rewrite andb_true_r. auto.
  - cbn [fold_left forallb flat_map]. destruct (IH (modalHandle m e)) as (H1 & H2 & H3 & H4).
    rewrite H1, H2, H3, H4. rewrite rev_app_distr, <- app_assoc.
    destruct e; cbn; rewrite ?andb_false_r, ?andb_true_r; auto.
Qed.

(** ** What the effect writes, rule by rule *)

Lemma guideRule_styles (b : bool) (d : document) :
  html_style (guideRule b d) = html_style d /\
  head_style (guideRule b d) = head_style d /\
  body_style (guideRule b d) = body_style d.
Proof.
  unfold guideRule. destruct b, (getElementById guideId d); auto.
  unfold removeById. destruct (remove_first guideId (head d)); auto.
  destruct (remove_first guideId (body d)); auto.
Qed.

Lemma root_styles_applySettings (s : AccessibilitySettings) (d : document) :
  html_style (applySettings s d) = htmlRule s (html_style d) /\
  head_style (applySettings s d)
  = set_style "outline" (if focusEnabled s then "2px solid #0000FF" else EmptyString)
      (head_style d) /\
  body_style (applySettings s d) = bodyRule s (body_style d).
Proof.
  rewrite applySettings_parts.
  destruct (guideRule_styles (guideEnabled s) (styleRules s d)) as (-> & -> & ->).
  rewrite styleRules_fields. auto.
Qed.

(** X13: the inline styles of [html], [head] and [body] after the effect,
    whatever the page had given them.  [html] has the font size, the filter,
    the letter spacing and the font family of the settings; [animation] on
    [html], [outline] on all three and [cursor] on [body] are set when their
    feature asks for it and are otherwise removed, also when the page had
    given them a value of its own. *)
Theorem root_styles (s : AccessibilitySettings) (d : document) :
  let html := html_style (applySettings s d) in
  let body := body_style (applySettings s d) in
  html !! "fontSize" = Some (textSize_text (textSize s)) /\
  html !! "filter" = Some (filterValue s) /\
  html !! "letterSpacing"
  = Some (match spacing s with SpacingWide => "0.1em" | SpacingNormal => "normal" end) /\
  html !! "fontFamily" = Some (font_text (font s)) /\
  html !! "animation" = (if animationsEnabled s then None else Some "none") /\
  html !! "outline" = outlineOf s /\
  body !! "outline" = outlineOf s /\
  body !! "cursor" = cursorOf s /\
  head_style (applySettings s d) !! "outline" = outlineOf s.
Proof.
  cbv zeta. destruct (root_styles_applySettings s d) as (-> & -> & ->).
  unfold htmlRule, bodyRule, outlineOf, cursorOf.
  assert (forall p v st, set_style p v st !! p
                         = if decide (v = EmptyString) then None else Some v) as Hsame.
  { intros p v st. rewrite lookup_set_style. case_decide; [reflexivity|congruence]. }
  assert (forall v : string, v <> EmptyString ->
            (if decide (v = EmptyString) then None else Some v) = Some v) as Hset.
  { intros v Hv. case_decide; [contradiction|reflexivity]. }
  repeat split;
    rewrite ?lookup_set_style_ne by discriminate; rewrite Hsame;
    try (apply Hset; unfold filterValue;
         destruct (highContrast s), (colorShift s); discriminate);
    match goal with
    | |- context [textSize s] => destruct (textSize s)
    | |- context [spacing s] => destruct (spacing s)
    | |- context [font s] => destruct (font s)
    | |- context [animationsEnabled s] => destruct (animationsEnabled s)
    | |- context [focusEnabled s] => destruct (focusEnabled s)
    | |- context [cursorEnabled s] => destruct (cursorEnabled s)
    end;
    reflexivity.
Qed.

Lemma querySelectorAll_styleRules (sel : string -> bool) (s : AccessibilitySettings)
  (d : document) :
  querySelectorAll sel (styleRules s d)
  = map (restyle (elementRule s)) (querySelectorAll sel d).
Proof.
  unfold querySelectorAll. rewrite styleRules_fields. cbn [head body].
  rewrite !select_in_restyle, map_app. reflexivity.
Qed.

Lemma querySelectorAll_matches (sel : string -> bool) (d : document) :
  Forall (fun e => sel (tagNameLower e) = true /\ is_element e = true)
    (querySelectorAll sel d).
Proof.
  unfold querySelectorAll. apply Forall_app.
  split; apply Forall_flat_map, Forall_forall; intros n _; apply select_node_matches.
Qed.

Lemma outline_after_elementRule (s : AccessibilitySettings) (e : node) :
  is_element e = true ->
  style_of (restyle (elementRule s) e) !! "outline" = outlineOf s.
Proof.
  destruct e as [data|tag attrs st kids]; [discriminate|]. intros _.
  cbn [restyle style_of]. unfold elementRule, outlineOf.
  destruct (tag_is "img" tag);
    rewrite ?lookup_set_style_ne by discriminate;
    rewrite lookup_set_style; (case_decide; [|congruence]);
    destruct (focusEnabled s); reflexivity.
Qed.

Lemma background_after_elementRule (s : AccessibilitySettings) (e : node) :
  tag_is "a" (tagNameLower e) = true -> is_element e = true ->
  style_of (restyle (elementRule s) e) !! "backgroundColor" = linkBackgroundOf s.
Proof.
  destruct e as [data|tag attrs st kids]; [discriminate|]. intros Ha _.
  cbn [restyle style_of tagNameLower] in *. unfold elementRule, linkBackgroundOf.
  rewrite Ha. unfold tag_is in Ha. apply bool_decide_eq_true in Ha. subst tag.
  change (tag_is "img" "a") with false. cbv iota.
  rewrite lookup_set_style_ne by discriminate.
  rewrite lookup_set_style. (case_decide; [|congruence]).
  destruct (highlightLinks s); reflexivity.
Qed.

Lemma guideLine_not_link : select_node (tag_is "a") guideLine = [].
Proof. vm_compute. reflexivity. Qed.

Lemma guideLine_no_outline : style_of guideLine !! "outline" = None.
Proof. vm_compute. reflexivity. Qed.

Lemma guideLine_selected : select_node any_tag guideLine = [guideLine].
Proof. reflexivity. Qed.

Lemma flat_map_one {A B : Type} (f : A -> list B) (x : A) : flat_map f [x] = f x.
Proof. simpl. apply app_nil_r. Qed.

Lemma querySelectorAll_appendChild (sel : string -> bool) (n : node) (d : document) :
  querySelectorAll sel (appendChild n d)
  = (querySelectorAll sel d ++ select_node sel n)%list.
Proof.
  unfold querySelectorAll, appendChild. cbn [head body].
  rewrite flat_map_app, flat_map_one, app_assoc. reflexivity.
Qed.

(** ** The page keeps its content *)

Lemma skeleton_restyle (f : string -> gmap string string -> gmap string string)
  (n : node) :
  skeleton (restyle f n) = skeleton n.
Proof. unfold skeleton. rewrite restyle_restyle. reflexivity. Qed.

Lemma map_skeleton_restyle (f : string -> gmap string string -> gmap string string)
  (l : list node) :
  map skeleton (map (restyle f) l) = map skeleton l.
Proof. rewrite map_map. apply map_ext. intros n. apply skeleton_restyle. Qed.

Lemma has_id_skeleton (id : string) (n n' : node) :
  skeleton n = skeleton n' -> has_id id n = has_id id n'.
Proof.
  intros H. rewrite <- (has_id_restyle (fun _ _ => ∅) id n),
              <- (has_id_restyle (fun _ _ => ∅) id n').
  fold (skeleton n) (skeleton n'). rewrite H. reflexivity.
Qed.

Lemma count_none_no_removal (id : string) (n : node) :
  count_node id n = 0%nat -> has_id id n = false /\ remove_below id n = None.
Proof.
  intros H0. pose proof (remove_first_count id [n]) as H.
  cbn [remove_first] in H. rewrite count_in_cons in H.
  change (count_in id []) with 0%nat in H.
  destruct (has_id id n).
  - change (count_in id []) with 0%nat in H. lia.
  - split; [reflexivity|]. destruct (remove_below id n) as [n'|]; [|reflexivity].
    lia.
Qed.

Lemma remove_first_app_last (id : string) (l : list node) (g : node) :
  count_in id l = 0%nat -> has_id id g = true -> remove_first id (l ++ [g]) = Some l.
Proof.
  intros Hl Hg. induction l as [|n l IH]; cbn [app remove_first].
  - rewrite Hg. reflexivity.
  - rewrite count_in_cons in Hl.
    destruct (count_none_no_removal id n) as [-> ->]; [lia|].
    rewrite IH by lia. reflexivity.
Qed.

Lemma remove_first_none (id : string) (l : list node) :
  count_in id l = 0%nat -> remove_first id l = None.
Proof.
  intros H0. pose proof (remove_first_count id l) as H.
  destruct (remove_first id l); [lia|reflexivity].
Qed.

Lemma has_id_guideLine : has_id guideId guideLine = true.
Proof. vm_compute. reflexivity. Qed.

Lemma appendChild_head (n : node) (d : document) : head (appendChild n d) = head d.
Proof. reflexivity. Qed.

Lemma appendChild_body (n : node) (d : document) :
  body (appendChild n d) = (body d ++ [n])%list.
Proof. reflexivity. Qed.

Lemma worked_on_start (d : document) :
  count_id guideId d = 0%nat -> worked_on d false d.
Proof.
  unfold count_id. fold (count_in guideId (head d)) (count_in guideId (body d)).
  intros H. split; [lia|]. split; [reflexivity|].
  exists (body d), guideLine. rewrite app_nil_r.
  split; [reflexivity|]. split; [lia|]. split; reflexivity.
Qed.

(** One more run of the effect keeps the page worked on, with a guide line
    exactly when the settings ask for one. *)
Lemma worked_on_applySettings (d0 d : document) (shown : bool)
  (s : AccessibilitySettings) :
  worked_on d0 shown d -> worked_on d0 (guideEnabled s) (applySettings s d).
Proof.
  intros (Hh & Hhs & l & g & Hb & Hl & Hls & Hg).
  assert (has_id guideId g = true) as Hgid
    by (rewrite (has_id_skeleton guideId g guideLine Hg); exact has_id_guideLine).
  rewrite applySettings_parts.
  set (R := restyle (elementRule s)).
  assert (head (styleRules s d) = map R (head d)
          /\ body (styleRules s d)
             = (map R l ++ (if shown then [R g] else []))%list) as [Eh Eb].
  { rewrite styleRules_fields. cbn [head body]. split; [reflexivity|].
    rewrite Hb, map_app. destruct shown; reflexivity. }
  assert (count_in guideId (map R (head d)) = 0%nat) as Hh'
    by (unfold R; rewrite count_in_restyle; exact Hh).
  assert (count_in guideId (map R l) = 0%nat) as Hl'
    by (unfold R; rewrite count_in_restyle; exact Hl).
  assert (has_id guideId (R g) = true) as Hgid'
    by (unfold R; rewrite has_id_restyle; exact Hgid).
  assert (map skeleton (map R (head d)) = map skeleton (head d0)) as Hhs'
    by (unfold R; rewrite map_skeleton_restyle; exact Hhs).
  assert (map skeleton (map R l) = map skeleton (body d0)) as Hls'
    by (unfold R; rewrite map_skeleton_restyle; exact Hls).
  assert (skeleton (R g) = skeleton guideLine) as Hg'
    by (unfold R; rewrite skeleton_restyle; exact Hg).
  assert (getElementById guideId (styleRules s d)
          = if shown then Some (R g) else None) as Hfind.
  { unfold getElementById. rewrite Eh, Eb.
    rewrite (proj2 (find_first_count guideId _) Hh'). destruct shown.
    - apply (find_first_app_last guideId _ _ Hl' Hgid').
    - rewrite app_nil_r. apply find_first_count, Hl'. }
  assert (shown = true ->
          head (removeById guideId (styleRules s d)) = map R (head d)
          /\ body (removeById guideId (styleRules s d)) = map R l) as Hrem.
  { intros ->. unfold removeById. rewrite Eh, Eb.
    rewrite (remove_first_none guideId _ Hh').
    rewrite (remove_first_app_last guideId _ _ Hl' Hgid'). cbn [head body].
    rewrite ?Eh. auto. }
  unfold guideRule. rewrite Hfind. unfold worked_on.
  destruct shown, (guideEnabled s).
  - rewrite Eh, Eb. split; [exact Hh'|]. split; [exact Hhs'|].
    exists (map R l), (R g). auto.
  - destruct (Hrem eq_refl) as [-> ->]. split; [exact Hh'|]. split; [exact Hhs'|].
    exists (map R l), guideLine. rewrite app_nil_r. auto.
  - rewrite appendChild_head, appendChild_body, Eh, Eb, app_nil_r.
    split; [exact Hh'|]. split; [exact Hhs'|].
    exists (map R l), guideLine.
    split; [reflexivity|]. split; [exact Hl'|]. split; [exact Hls'|reflexivity].
  - rewrite Eh, Eb. split; [exact Hh'|]. split; [exact Hhs'|].
    exists (map R l), guideLine. auto.
Qed.

Lemma worked_on_applyAll (ss : list AccessibilitySettings) (d : document) :
  count_id guideId d = 0%nat ->
  worked_on d (guideEnabled (List.last ss defaultSettings)) (applyAll ss d).
Proof.
  intros Hd. induction ss as [|s ss IH] using rev_ind.
  - apply worked_on_start, Hd.
  - unfold applyAll in *. rewrite fold_left_app, last_last. cbn [fold_left].
    apply (worked_on_applySettings d _ _ s IH).
Qed.

Lemma textContent_restyle (f : string -> gmap string string -> gmap string string)
  (n : node) :
  textContent (restyle f n) = textContent n.
Proof.
  induction n as [data|tag attrs st kids IH] using node_ind'; [reflexivity|].
  cbn [restyle textContent].
  induction IH as [|k kids Hk _ IHkids]; [reflexivity|].
  cbn [map]. rewrite Hk, IHkids. reflexivity.
Qed.

Lemma items_skeleton (e : node) :
  landmarkItem (skeleton e) = landmarkItem e /\
  headingItem (skeleton e) = headingItem e /\
  linkItem (skeleton e) = linkItem e.
Proof.
  unfold headingItem, skeleton. rewrite textContent_restyle.
  destruct e; repeat split; reflexivity.
Qed.

Section SameItems.
Variables (sel : string -> bool) (item : node -> vnode).
Hypothesis item_skeleton : forall e, item (skeleton e) = item e.

Lemma items_of_skeletons (l l' : list node) :
  map skeleton l = map skeleton l' ->
  map item (flat_map (select_node sel) l) = map item (flat_map (select_node sel) l').
Proof.
  intros H.
  assert (forall l0, map item (flat_map (select_node sel) l0)
                     = map item (flat_map (select_node sel) (map skeleton l0))) as E.
  { intros l0. unfold skeleton at 1. rewrite select_in_restyle, map_map.
    apply map_ext. intros e. symmetry. apply item_skeleton. }
  rewrite (E l), (E l'), H. reflexivity.
Qed.

Lemma pageSection_same_items (titleClass title : string) (els els' : list node) :
  map item els = map item els' ->
  pageSection titleClass title item els = pageSection titleClass title item els'.
Proof.
  intros H. unfold pageSection. rewrite <- (length_map item els), H, length_map.
  reflexivity.
Qed.

Lemma items_worked_on (d0 d : document) (shown : bool) :
  select_node sel (skeleton guideLine) = [] ->
  worked_on d0 shown d ->
  map item (querySelectorAll sel d) = map item (querySelectorAll sel d0).
Proof.
  intros Hguide (_ & Hhs & l & g & Hb & _ & Hls & Hg).
  unfold querySelectorAll. rewrite Hb, !map_app. f_equal.
  - apply items_of_skeletons, Hhs.
  - rewrite flat_map_app, map_app, (items_of_skeletons l (body d0) Hls).
    destruct shown; cbn [flat_map]; [|apply app_nil_r].
    rewrite app_nil_r.
    assert (select_node sel g = []) as ->; [|apply app_nil_r].
    assert (map skeleton (select_node sel g) = []) as E.
    { unfold skeleton at 1. rewrite <- select_node_restyle. fold (skeleton g).
      rewrite Hg. exact Hguide. }
    destruct (select_node sel g); [reflexivity|discriminate E].
Qed.
End SameItems.

(** X15: the effect leaves the content of the page alone.  On a page that
    had no guide line, after the effect has run for any sequence of settings
    records, [head] and [body] hold the nodes they held, with their tags,
    attributes, text and order, only inline styles having changed; [body]
    has one more child, the guide line, exactly when the last record has
    [guideEnabled]; and the page-structure inspector shows what it showed on
    the page as it was. *)
Theorem page_keeps_its_content (ss : list AccessibilitySettings) (d : document) :
  count_id guideId d = 0%nat ->
  map skeleton (head (applyAll ss d)) = map skeleton (head d) /\
  map skeleton (body (applyAll ss d))
  = (map skeleton (body d)
     ++ (if guideEnabled (List.last ss defaultSettings) then [skeleton guideLine] else []))%list /\
  renderPageStructure (applyAll ss d) = renderPageStructure d.
Proof.
  intros Hd. pose proof (worked_on_applyAll ss d Hd) as Hw.
  split; [apply Hw|]. split.
  - destruct Hw as (_ & _ & l & g & Hb & _ & Hls & Hg).
    rewrite Hb, map_app, Hls.
    destruct (guideEnabled (List.last ss defaultSettings)); cbn [map]; rewrite ?Hg;
      reflexivity.
  - unfold renderPageStructure. cbv zeta.
    rewrite (pageSection_same_items landmarkItem _ _ _ _
               (items_worked_on is_landmark landmarkItem
                  (fun e => proj1 (items_skeleton e)) d _ _ eq_refl Hw)).
    rewrite (pageSection_same_items headingItem _ _ _ _
               (items_worked_on is_heading headingItem
                  (fun e => proj1 (proj2 (items_skeleton e))) d _ _ eq_refl Hw)).
    rewrite (pageSection_same_items linkItem _ _ _ _
               (items_worked_on (tag_is "a") linkItem
                  (fun e => proj2 (proj2 (items_skeleton e))) d _ _ eq_refl Hw)).
    reflexivity.
Qed.

Lemma page_keeps_its_content_witness :
  let d := Document ∅ ∅ [] ∅ [Element "h1" ∅ {[ "color" := "red" ]} [Text "Menu"]] in
  let ss := [focus_and_guide; defaultSettings; focus_and_guide] in
  map skeleton (head (applyAll ss d)) = map skeleton (head d) /\
  map skeleton (body (applyAll ss d))
  = (map skeleton (body d)
     ++ (if guideEnabled (List.last ss defaultSettings) then [skeleton guideLine] else []))%list /\
  renderPageStructure (applyAll ss d) = renderPageStructure d.
Proof.
  apply (page_keeps_its_content [focus_and_guide; defaultSettings; focus_and_guide]
           (Document ∅ ∅ [] ∅ [Element "h1" ∅ {[ "color" := "red" ]} [Text "Menu"]])).
  reflexivity.
Defined.

(** ** Mounting and the store *)



(** X17: no save is skipped and none is merged.  From record settings any
    sequence of actions succeeds; it makes one write per action, each under
    the fixed key; after the last one the key holds the serialization of the
    settings in memory, which is also the latest write; no other key of the
    store has changed. *)
Theorem run_saves_each_step (acts : list action) (c : component) :
  holds_record c ->
  exists c' new,
    run acts c = Ok c' /\
    writes c' = (new ++ writes c)%list /\
    length new = length acts /\
    Forall (fun w => fst w = storageKey) new /\
    (acts <> [] ->
     hd_error new = Some (storageKey, JSON_stringify (settings c')) /\
     getItem storageKey (storage c') = Some (JSON_stringify (settings c'))) /\
    (forall k, k <> storageKey -> getItem k (storage c') = getItem k (storage c)).
Proof.
  revert c. induction acts as [|a acts IH] using rev_ind; intros c Hc.
  - exists c, []. do 3 (split; [reflexivity|]). split; [constructor|].
    split; [congruence|reflexivity].
  - destruct (IH c Hc) as (c1 & new & Hr & Hw & Hlen & Hkey & _ & Hother).
    assert (holds_record c1) as Hc1.
    { destruct (run_record acts c Hc) as (c1' & Hr' & Hc1').
      rewrite Hr in Hr'. inversion Hr'; subst. exact Hc1'. }
    destruct (dispatch_record a c1 Hc1) as (c2 & Hd & _).
    assert (run (acts ++ [a]) c = Ok c2) as Hrun.
    { clear - Hr Hd. revert c Hr. induction acts as [|a0 acts IHa]; intros c Hr.
      - cbn in Hr. inversion Hr; subst. cbn. rewrite Hd. reflexivity.
      - cbn [app run] in *. destruct (dispatch a0 c) as [c0|]; [|discriminate].
        cbn [bind] in *. apply IHa, Hr. }
    unfold dispatch in Hd. destruct (update a (settings c1)) as [next|]; [|discriminate].
    cbn [bind] in Hd. inversion Hd; subst c2.
    exists (commit next c1), ((storageKey, JSON_stringify next) :: new).
    cbn [settings storage writes commit].
    split; [exact Hrun|]. split; [rewrite Hw; reflexivity|].
    split; [rewrite length_app; cbn; lia|].
    split; [constructor; [reflexivity|exact Hkey]|].
    split; [intros _; split; [reflexivity|apply getItem_save]|].
    intros k Hk. rewrite getItem_save_other by exact Hk. apply Hother, Hk.
Qed.

Lemma run_saves_each_step_witness :
  exists c' new,
    run [Change KguideEnabled true; Reset] (Component (to_js defaultSettings) ∅ [])
    = Ok c' /\
    writes c' = (new ++ [])%list /\
    length new = 2%nat /\
    Forall (fun w => fst w = storageKey) new /\
    ([Change KguideEnabled true; Reset] <> [] ->
     hd_error new = Some (storageKey, JSON_stringify (settings c')) /\
     getItem storageKey (storage c') = Some (JSON_stringify (settings c'))) /\
    (forall k, k <> storageKey -> getItem k (storage c') = getItem k ∅).
Proof.
  apply (run_saves_each_step [Change KguideEnabled true; Reset]
           (Component (to_js defaultSettings) ∅ [])).
  exists defaultSettings. reflexivity.
Defined.

(** ** Settings that are not a record *)

Lemma obj_get_none_keys (n : jsstring) (props : list (jsstring * json)) :
  obj_get n props = None -> Forall (fun kv => fst kv <> n) props.
Proof.
  induction props as [|[k v] rest IH]; cbn [obj_get]; [constructor|].
  destruct (jsstring_eqb_spec n k) as [->|Hne]; [discriminate|].
  intros H. constructor; [cbn; congruence|apply IH, H].
Qed.

Lemma obj_get_copied_none (n : jsstring) (l acc : list (jsstring * json)) :
  Forall (fun kv => fst kv <> n) l -> obj_get n acc = None ->
  obj_get n (fold_left (fun o kv => obj_set (fst kv) (snd kv) o) l acc) = None.
Proof.
  intros Hl. revert acc. induction Hl as [|[k v] l Hk _ IH]; intros acc Hacc.
  - exact Hacc.
  - cbn [fold_left fst snd]. apply IH. cbn in Hk.
    rewrite obj_get_set_ne by (intros E; apply Hk; symmetry; exact E). exact Hacc.
Qed.

(** A property an object lacks is not in its copy. *)
Lemma obj_get_spread_none (n : jsstring) (props : list (jsstring * json)) :
  obj_get n props = None -> obj_get n (spread (JObj props)) = None.
Proof.
  intros H. unfold spread, own_props.
  apply obj_get_copied_none; [apply obj_get_none_keys, H|reflexivity].
Qed.

Lemma same_key_names (k k' : Key) :
  same_key k k' = false -> lit (key_name k') <> lit (key_name k).
Proof. destruct k, k'; (discriminate || (intros _; discriminate)). Qed.

Lemma update_keeps_field_missing (k : Key) (a : action)
  (props : list (jsstring * json)) :
  obj_get (lit (key_name k)) props = None -> writes_field k a = false ->
  exists props', update a (JObj props) = Ok (JObj props') /\
                 obj_get (lit (key_name k)) props' = None.
Proof.
  intros Hmiss Ha. destruct a as [k' v| |]; cbn [writes_field] in Ha.
  - eexists. split; [reflexivity|].
    rewrite obj_get_set_ne
      by (intros E; apply (same_key_names k k' Ha); symmetry; exact E).
    apply obj_get_spread_none, Hmiss.
  - eexists. split; [reflexivity|].
    rewrite obj_get_set_ne
      by (intros E; apply (same_key_names k KshowPageStructure Ha); symmetry; exact E).
    apply obj_get_spread_none, Hmiss.
  - discriminate.
Qed.

(** X18: settings that lack a field are repaired by Reset only.  When the
    in-memory settings are an object without the field [k], as after loading
    a stored object of another shape, they still lack it after any sequence
    of actions that do not write that very field, and so are never fully
    populated; a Reset then makes them the default record. *)
Theorem only_reset_repairs (k : Key) (acts : list action)
  (props : list (jsstring * json)) (ls : gmap jsstring jsstring)
  (w : list (jsstring * jsstring)) :
  prop (lit (key_name k)) (JObj props) = None ->
  forallb (fun a => negb (writes_field k a)) acts = true ->
  exists c',
    run acts (Component (JObj props) ls w) = Ok c' /\
    prop (lit (key_name k)) (settings c') = None /\
    ~ fully_populated (settings c') /\
    exists c'', dispatch Reset c' = Ok c'' /\ fully_populated (settings c'').
Proof.
  cbn [prop]. intros Hmiss Hacts.
  assert (exists c' props', run acts (Component (JObj props) ls w) = Ok c'
                            /\ settings c' = JObj props'
                            /\ obj_get (lit (key_name k)) props' = None)
    as (c' & props' & Hr & Hs & Hm).
  { revert props ls w Hmiss. induction acts as [|a acts IH]; intros props ls w Hmiss.
    - exists (Component (JObj props) ls w), props. auto.
    - cbn [forallb] in Hacts. apply andb_prop in Hacts as [Ha Hrest].
      apply negb_true_iff in Ha.
      destruct (update_keeps_field_missing k a props Hmiss Ha) as (props1 & Hu & Hm1).
      cbn [run]. unfold dispatch. cbn [settings]. rewrite Hu. cbn [bind].
      unfold commit. cbn [storage writes].
      apply (IH Hrest props1 _ _ Hm1). }
  exists c'. split; [exact Hr|]. rewrite Hs. cbn [prop].
  split; [exact Hm|]. split.
  - intros Hfull. destruct (Hfull k) as [x Hx]. cbn [prop] in Hx. congruence.
  - eexists. split; [reflexivity|]. cbn [settings commit resetSettings].
    apply to_js_populated.
Qed.

Lemma only_reset_repairs_witness :
  exists c',
    run [Change KfocusEnabled true; TogglePageStructure]
      (Component (JObj [(lit "font", JStr (lit "serif"))]) ∅ []) = Ok c' /\
    prop (lit "spacing") (settings c') = None /\
    ~ fully_populated (settings c') /\
    exists c'', dispatch Reset c' = Ok c'' /\ fully_populated (settings c'').
Proof.
  apply (only_reset_repairs Kspacing [Change KfocusEnabled true; TogglePageStructure]
           [(lit "font", JStr (lit "serif"))] ∅ []); reflexivity.
Defined.

(** ** Buttons that set a value *)

Lemma valueButton_rendered (c : ValueControl) (w : widget) (d : document)
  (s : AccessibilitySettings) :
  settings (core w) = to_js s -> isHidden w = false -> isOpen w = true ->
  In (valueButton c s) (buttonsOf (widgetView w d)).
Proof.
  destruct w as [o hd r co]. cbn [core isHidden isOpen]. intros Hs -> ->.
  apply (nth_error_In _
           (match c with CBiggerText => 10 | CNormalText => 11 | CSerifFonts => 12 end)%nat).
  unfold widgetView. cbn [core isHidden isOpen]. rewrite Hs.
  destruct s as [a1 a2 a3 a4 a5 a6 a7 a8 a9 a10 a11 a12].
  destruct c, a7, a9; reflexivity.
Qed.

(** X19: Bigger Text, Normal Text and Serif Fonts show whether their value
    is the current one, and a click on one that does changes nothing but is
    saved all the same.  In an open panel on record settings each of the
    three is rendered with [aria-pressed] true exactly when the settings
    hold its value; it can be clicked; the settings it leaves hold its
    value; and when it was pressed they are the settings there were, written
    to the store once more. *)
Theorem pressed_button_saves_again (d : document) (w : widget)
  (s : AccessibilitySettings) (c : ValueControl) :
  settings (core w) = to_js s ->
  isRemoved w = false -> isHidden w = false -> isOpen w = true ->
  In (valueButton c s) (buttonsOf (widgetView w d)) /\
  exists w' s',
    click d (valueHandler c) w w' /\
    settings (core w') = to_js s' /\ valueIsSet c s' = true /\
    writes (core w') = (storageKey, JSON_stringify (to_js s')) :: writes (core w) /\
    (valueIsSet c s = true -> s' = s).
Proof.
  intros Hs Hr Hh Ho. split; [apply valueButton_rendered; assumption|].
  assert (In (valueHandler c) (offered w s)) as Hin.
  { unfold offered. rewrite Hr, Hh, Ho. apply in_or_app. left. right.
    apply in_or_app. right. destruct c; cbn; auto 20. }
  destruct (click_offered d (valueHandler c) w s Hs Hin) as (w' & Hc & Hs' & _).
  exists w', (settingsAfter (valueHandler c) s).
  split; [exact Hc|]. split; [exact Hs'|].
  split; [destruct c, s; reflexivity|]. split.
  - destruct Hc as [_ Hf]. apply fire_saves in Hf.
    rewrite <- Hs'. destruct c; cbn [valueHandler] in Hf; apply Hf.
  - destruct s as [a1 a2 a3 a4 a5 a6 a7 a8 a9 a10 a11 a12].
    destruct c, a7, a9; cbn; intros H; (discriminate H || reflexivity).
Qed.

Lemma pressed_button_saves_again_witness :
  let w := Widget true false false (Component (to_js defaultSettings) ∅ []) in
  In (valueButton CNormalText defaultSettings) (buttonsOf (widgetView w blank_page)) /\
  exists w' s',
    click blank_page (valueHandler CNormalText) w w' /\
    settings (core w') = to_js s' /\ valueIsSet CNormalText s' = true /\
    writes (core w') = (storageKey, JSON_stringify (to_js s')) :: writes (core w) /\
    (valueIsSet CNormalText defaultSettings = true -> s' = defaultSettings).
Proof.
  apply (pressed_button_saves_again blank_page
           (Widget true false false (Component (to_js defaultSettings) ∅ []))
           defaultSettings CNormalText); reflexivity.
Defined.

(** ** The elements of the page before and after the effect *)

Lemma removeById_absent (id : string) (d : document) :
  getElementById id d = None -> removeById id d = d.
Proof.
  intros H. apply getElementById_count in H. unfold count_id in H.
  fold (count_in id (head d)) (count_in id (body d)) in H.
  unfold removeById.
  rewrite (remove_first_none id (head d)), (remove_first_none id (body d)) by lia.
  reflexivity.
Qed.

(** What a selector finds after the effect: the elements it finds on the
    page, less the one the effect removes with what is below it, each with
    the inline style the rules give it, and the guide line when the effect
    has created it. *)
Lemma querySelectorAll_applySettings (sel : string -> bool)
  (s : AccessibilitySettings) (d : document) :
  querySelectorAll sel (applySettings s d)
  = (map (restyle (elementRule s))
       (querySelectorAll sel (if guideEnabled s then d else removeById guideId d))
     ++ (if guideEnabled s && (count_id guideId d =? 0)%nat
         then select_node sel guideLine else []))%list.
Proof.
  rewrite applySettings_parts. unfold guideRule.
  pose proof (getElementById_count guideId (styleRules s d)) as Hg.
  rewrite count_id_styleRules in Hg.
  destruct (guideEnabled s);
    destruct (getElementById guideId (styleRules s d)) eqn:E; cbn [andb].
  - destruct (count_id guideId d =? 0)%nat eqn:E0.
    + apply Nat.eqb_eq, Hg in E0. discriminate E0.
    + rewrite querySelectorAll_styleRules, app_nil_r. reflexivity.
  - rewrite (proj2 (Nat.eqb_eq _ _) (proj1 Hg eq_refl)).
    rewrite querySelectorAll_appendChild, querySelectorAll_styleRules. reflexivity.
  - rewrite <- styleRules_removeById, querySelectorAll_styleRules, app_nil_r.
    reflexivity.
  - rewrite removeById_absent
      by (apply getElementById_count, Hg; reflexivity).
    rewrite querySelectorAll_styleRules, app_nil_r. reflexivity.
Qed.

Lemma guideLine_not_image : select_node (tag_is "img") guideLine = [].
Proof. vm_compute. reflexivity. Qed.

Lemma image_displays_after (s : AccessibilitySettings) (d : document) :
  image_displays (applySettings s d)
  = map (fun _ => Some (if imagesVisible s then "block" else "none"))
      (image_displays (if guideEnabled s then d else removeById guideId d)).
Proof.
  rewrite <- image_displays_styleRules.
  unfold image_displays. f_equal.
  rewrite querySelectorAll_applySettings, querySelectorAll_styleRules.
  rewrite guideLine_not_image.
  destruct (guideEnabled s && (count_id guideId d =? 0)%nat); apply app_nil_r.
Qed.

(** C10: while [imagesVisible] holds, the images after the effect are the
    images of the page, one for one and in order (less those below an
    element the effect removes as guide line), each with the inline display
    ["block"], whatever it had before.  So on a page without a guide line,
    hiding the images and showing them again gives every image ["none"] and
    then ["block"], which is not what the page had when some image had
    another display. *)
Theorem images_shown_as_block (s : AccessibilitySettings) (d : document) :
  imagesVisible s = true ->
  image_displays (applySettings s d)
  = map (fun _ => Some "block")
      (image_displays (if guideEnabled s then d else removeById guideId d)) /\
  forall hidden : AccessibilitySettings,
    imagesVisible hidden = false -> guideEnabled hidden = guideEnabled s ->
    count_id guideId d = 0%nat ->
    image_displays (applySettings s d)
    = map (fun _ => Some "block") (image_displays d) /\
    image_displays (applySettings hidden d)
    = map (fun _ => Some "none") (image_displays d) /\
    image_displays (applySettings s (applySettings hidden d))
    = map (fun _ => Some "block") (image_displays d) /\
    (Exists (fun v => v <> Some "block") (image_displays d) ->
     image_displays (applySettings s (applySettings hidden d)) <> image_displays d).
Proof.
  intros Hs. split.
  { rewrite image_displays_after, Hs. reflexivity. }
  intros hidden Hh Hg Hd.
  assert (image_displays (applySettings hidden d)
          = map (fun _ => Some "none") (image_displays d)) as H1.
  { rewrite image_displays_applySettings by (right; exact Hd). rewrite Hh. reflexivity. }
  assert (image_displays (applySettings s (applySettings hidden d))
          = map (fun _ => Some "block") (image_displays d)) as H2.
  { rewrite image_displays_applySettings.
    - rewrite Hs, H1, map_map. reflexivity.
    - destruct (guideEnabled s) eqn:E; [left; reflexivity|right].
      rewrite count_id_applySettings by lia. rewrite Hg. reflexivity. }
  split; [|split; [exact H1|split; [exact H2|]]].
  - rewrite image_displays_applySettings by (right; exact Hd). rewrite Hs. reflexivity.
  - intros Hex Heq. rewrite H2 in Heq.
    apply Exists_exists in Hex as (v & Hin & Hv). apply Hv.
    rewrite <- Heq in Hin. apply list_elem_of_In, in_map_iff in Hin as (_ & Hin & _).
    symmetry. exact Hin.
Qed.

Lemma images_shown_as_block_witness :
  let d := Document ∅ ∅ [] ∅
             [Element "img" ∅ {[ "display" := "inline" ]} []; Element "img" ∅ ∅ []] in
  let hidden := with_field KimagesVisible false defaultSettings in
  image_displays (applySettings defaultSettings d) = [Some "block"; Some "block"] /\
  image_displays (applySettings hidden d) = [Some "none"; Some "none"] /\
  image_displays (applySettings defaultSettings (applySettings hidden d))
  <> image_displays d.
Proof.
  cbv zeta.
  destruct (images_shown_as_block defaultSettings
              (Document ∅ ∅ [] ∅
                 [Element "img" ∅ {[ "display" := "inline" ]} []; Element "img" ∅ ∅ []])
              eq_refl) as [_ H].
  destruct (H (with_field KimagesVisible false defaultSettings) eq_refl eq_refl eq_refl)
    as (H1 & H2 & _ & H4).
  split; [exact H1|]. split; [exact H2|].
  apply H4. constructor. discriminate.
Defined.

(** X14: links and outlines after the effect, element by element.  The
    links after the effect are the links of the page, one for one and in
    order (less those the effect removes with the guide line), each with
    the highlight as inline background when [highlightLinks] holds and with
    no inline background otherwise, also if the page had given it one.  The
    elements after the effect are those of the page in the same way, each
    with the focus outline when [focusEnabled] holds and with no inline
    outline otherwise, followed by the guide line when this application has
    created it, which has no outline; [html], [head] and [body] have the
    outline or none like every other element. *)
Theorem links_and_outlines (s : AccessibilitySettings) (d : document) :
  let after := applySettings s d in
  let kept := if guideEnabled s then d else removeById guideId d in
  let created := guideEnabled s && (count_id guideId d =? 0)%nat in
  map skeleton (querySelectorAll (tag_is "a") after)
  = map skeleton (querySelectorAll (tag_is "a") kept) /\
  map (fun e => style_of e !! "backgroundColor") (querySelectorAll (tag_is "a") after)
  = map (fun _ => linkBackgroundOf s) (querySelectorAll (tag_is "a") kept) /\
  map skeleton (querySelectorAll any_tag after)
  = (map skeleton (querySelectorAll any_tag kept)
     ++ (if created then [skeleton guideLine] else []))%list /\
  map (fun e => style_of e !! "outline") (querySelectorAll any_tag after)
  = (map (fun _ => outlineOf s) (querySelectorAll any_tag kept)
     ++ (if created then [None] else []))%list /\
  html_style after !! "outline" = outlineOf s /\
  head_style after !! "outline" = outlineOf s /\
  body_style after !! "outline" = outlineOf s.
Proof.
  cbv zeta. rewrite !querySelectorAll_applySettings.
  rewrite guideLine_not_link, guideLine_selected.
  assert (forall b : bool, (if b then @nil node else []) = []) as -> by (intros []; reflexivity).
  rewrite app_nil_r, !map_app, !map_skeleton_restyle, !map_map.
  split; [reflexivity|]. split; [|split; [|split]].
  - apply map_ext_Forall.
    eapply Forall_impl; [apply querySelectorAll_matches|].
    intros e [H1 H2]. apply background_after_elementRule; assumption.
  - f_equal. destruct (guideEnabled s && (count_id guideId d =? 0)%nat); reflexivity.
  - f_equal.
    + apply map_ext_Forall.
      eapply Forall_impl; [apply (querySelectorAll_matches any_tag)|].
      intros e [H1 H2]. apply outline_after_elementRule; assumption.
    + destruct (guideEnabled s && (count_id guideId d =? 0)%nat); [|reflexivity].
      cbn [map]. rewrite guideLine_no_outline. reflexivity.
  - destruct (root_styles_applySettings s d) as (-> & -> & ->).
    unfold htmlRule, bodyRule, outlineOf.
    rewrite ?lookup_set_style_ne by discriminate. rewrite !lookup_set_style.
    destruct (focusEnabled s); repeat split; reflexivity.
Qed.

(** ** The inspector and the nodes of the widget *)


Section Counting.
Variables (sel : string -> bool) (icon : list node).




End Counting.

Section Placed.
Variable sel : string -> bool.



End Placed.









